(** * Myntra seller MCP server: session lifecycle and tool dispatch

    A shallow embedding of [src/index.ts]: the token store
    ([storeTokens], [getTokens], [revokeTokens]), the session manager
    ([checkAuthentication]), the outbound client ([makeApiRequest]), the
    tool handlers and the [CallToolRequestSchema] dispatcher, together with
    the HTTP login, status and logout routes, the tool catalog of the
    [ListToolsRequestSchema] handler, the readiness probe, the
    [active_connections] figure of the metrics route and the origin check
    given to [cors].

    The server is asynchronous, single-threaded code whose only effects are
    the in-process [Map], the optional Redis client, the clock, [axios] and
    [console.error].  Every [async] function becomes a computation in a
    state-and-exception monad over a [World] that holds the server's fields,
    the behaviour of its collaborators (how the remote API answers, which
    Redis commands fail, what the clock shows) and a log of what was sent.

    What the embedding leaves out:
    - interleaving: one call runs from start to end before the next;
    - the expiry of Redis keys (the seven days given to [setEx] are
      recorded with the key, nothing removes it);
    - the text of the tool results other than those of the two
      authentication tools and of the gates: it is produced from the reply by
      templates that format dates, locales and floating-point numbers, and is
      taken from the environment ([present]);
    - values outside the declared types of [seller_id], [api_key],
      [api_secret], of the token record and of the token endpoints' replies;
    - floating point: numbers are integers and the arithmetic on them is
      exact, which is the code's arithmetic as long as the values are
      integers a double holds exactly ([exactExpiry]).

    The compiled stdio build of the server that the repository also carries
    has no Redis client and no HTTP routes: it is the case [redis = None]. *)

From Stdlib Require Import ZArith String Ascii List Lia.
From stdpp Require Import base option strings gmap list pretty.

Local Open Scope string_scope.
Local Open Scope list_scope.

(** ** JavaScript values *)

(** JSON-shaped values: tool arguments, request bodies and response bodies.
    Numbers are integers (the exact part of a double). *)
#[warnings="-register-all"]
Inductive JsVal : Type :=
| JUndefined
| JNull
| JBool (b : bool)
| JNum (n : Z)
| JStr (s : string)
| JArr (items : list JsVal)
| JObj (props : list (string * JsVal)).

(** [!!v]: which values pass an [if (v)] test. *)
Definition truthyV (v : JsVal) : bool :=
  match v with
  | JUndefined | JNull => false
  | JBool b => b
  | JNum n => negb (n =? 0)%Z
  | JStr s => negb (s =? "")
  | JArr _ | JObj _ => true
  end.

(** A value of TypeScript type [string] that may be [undefined] at run time
    ([args?.seller_id], an optional field): [None] is [undefined]. *)
Definition truthy (s : option string) : bool :=
  match s with
  | Some s => negb (s =? "")
  | None => false
  end.

(** [a || b] on optional strings. *)
Definition orElse (a b : option string) : option string :=
  if truthy a then a else b.

(** String conversion of a value, as in a template literal [`${v}`] or an
    argument of [URLSearchParams.append].  It fails ([None], a [TypeError])
    on an object whose own [toString] property, coming from JSON, is not a
    function, and on an array that has such an element.  A number is
    printed with all its digits, which is what the code prints for an
    integer below 10^21 in magnitude; from there on the code prints an
    exponent. *)
Fixpoint ToString (v : JsVal) : option string :=
  match v with
  | JUndefined => Some "undefined"
  | JNull => Some "null"
  | JBool true => Some "true"
  | JBool false => Some "false"
  | JNum n => Some (pretty n)
  | JStr s => Some s
  | JArr items =>
      (fix join (l : list JsVal) : option string :=
         match l with
         | [] => Some ""
         | x :: rest =>
             let sx := match x with
                       | JUndefined | JNull => Some ""
                       | _ => ToString x
                       end in
             match sx, rest with
             | None, _ => None
             | Some sx, [] => Some sx
             | Some sx, _ =>
                 match join rest with
                 | Some sr => Some (sx +:+ "," +:+ sr)
                 | None => None
                 end
             end
         end) items
  | JObj props =>
      if bool_decide ("toString" ∈ props.*1) then None
      else Some "[object Object]"
  end.

Definition strOf (s : option string) : string :=
  match s with
  | Some s => s
  | None => "undefined"
  end.

Definition numOf (n : option Z) : string :=
  match n with
  | Some n => pretty n
  | None => "NaN"
  end.

(** ** Errors and results *)

(** An [Error] object, with what the handlers read from it:
    [error.message] and [error.response?.data?.message]. *)
Record JsError := mkError {
  message : string;
  response_data_message : option string
}.

Definition Error (msg : string) : JsError := mkError msg None.
Definition TypeError (msg : string) : JsError := mkError msg None.

Inductive ErrorCode := InternalError.

Inductive Thrown :=
| ErrorObj (e : JsError)
| McpError (code : ErrorCode) (msg : string).

(** [(error as Error).message] *)
Definition messageOf (t : Thrown) : string :=
  match t with
  | ErrorObj e => message e
  | McpError _ msg => msg
  end.

(** [error.response?.data?.message || error.message] *)
Definition detailOf (t : Thrown) : string :=
  match t with
  | ErrorObj e => strOf (orElse (response_data_message e) (Some (message e)))
  | McpError _ msg => msg
  end.

Inductive Outcome (A : Type) :=
| Returns (a : A)
| Throws (t : Thrown).
Arguments Returns {A} a.
Arguments Throws {A} t.

(** ** Data model *)

(** The fields are optional: [None] is [undefined], and for [expiresOn]
    also the [NaN] that a reply without [expires_in] gives (both fail the
    [tokens.expiresOn && ...] test, in memory and after a round trip through
    JSON). *)
Record SellerTokens := mkTokens {
  accessToken : option string;
  refreshToken : option string;
  expiresOn : option Z;
  sellerId : option string
}.

(** The tool-call argument object: the three credential properties at their
    declared type, every other property as a JSON value. *)
Record Args := mkArgs {
  seller_id : option string;
  api_key : option string;
  api_secret : option string;
  fields : gmap string JsVal
}.

Definition noArgs : Args := mkArgs None None None ∅.

Definition arg (args : Args) (name : string) : JsVal :=
  default JUndefined (fields args !! name).

(** Destructuring default [{ x = d }]: applies to [undefined] only. *)
Definition orDefault (d v : JsVal) : JsVal :=
  match v with
  | JUndefined => d
  | _ => v
  end.

Record TextContent := mkText { type_ : string; text : string }.

(** [isError] is absent ([None]) on success results. *)
Record ToolResult := mkResult {
  content : list TextContent;
  isError : option bool
}.

Definition textResult (t : string) : ToolResult :=
  mkResult [mkText "text" t] None.
Definition errorResult (t : string) : ToolResult :=
  mkResult [mkText "text" t] (Some true).

(** ** Collaborators *)

Record Request := mkRequest {
  method : string;
  url : string;
  headers : list (string * string);
  data : JsVal
}.

(** What [POST /auth/token] and [POST /auth/refresh] answer with. *)
Record TokenResponse := mkTokenResponse {
  access_token : option string;
  refresh_token : option string;
  expires_in : option Z
}.

Inductive Reply (A : Type) :=
| Resolved (body : A)
| Rejected (e : JsError).
Arguments Resolved {A} body.
Arguments Rejected {A} e.

(** The text written to Redis: [JSON.stringify] of a token record.
    [JSON.parse] gives the record back ([undefined] fields are dropped and
    read back as [undefined]).  This holds of every record whose expiry is
    a finite number; [JSON.stringify] writes [null] for [NaN], which is
    [None] here already, and for [Infinity], which the exact arithmetic of
    [expiry] never produces. *)
Inductive JsonText := Stringified (t : SellerTokens).

Definition JSON_stringify (t : SellerTokens) : JsonText := Stringified t.
Definition JSON_parse (j : JsonText) : SellerTokens :=
  match j with Stringified t => t end.

(** The Redis client and server behind it: the keys held (with the expiry
    given to [setEx]) and, for each coming command, whether it throws. *)
Record RedisClient := mkRedis {
  store : gmap string (Z * JsonText);
  faults : list (option JsError)
}.

Record World := mkWorld {
  (* fields of the server object *)
  sellerTokens : gmap (option string) SellerTokens;
  redis : option RedisClient;
  myntraApiBase : string;
  (* the environment *)
  clock : nat → Z;
  ticks : nat;
  authRemote : list Request → Request → Reply TokenResponse;
  apiRemote : list Request → Request → Reply JsVal;
  present : string → Args → JsVal → Outcome string;
  (* what has been observed *)
  sent : list Request;
  console : list (string * Thrown)
}.

Definition set_sellerTokens (m : gmap (option string) SellerTokens) (w : World) : World :=
  mkWorld m (redis w) (myntraApiBase w) (clock w) (ticks w)
          (authRemote w) (apiRemote w) (present w) (sent w) (console w).

Definition set_redis (r : option RedisClient) (w : World) : World :=
  mkWorld (sellerTokens w) r (myntraApiBase w) (clock w) (ticks w)
          (authRemote w) (apiRemote w) (present w) (sent w) (console w).

Definition set_ticks (n : nat) (w : World) : World :=
  mkWorld (sellerTokens w) (redis w) (myntraApiBase w) (clock w) n
          (authRemote w) (apiRemote w) (present w) (sent w) (console w).

Definition set_sent (l : list Request) (w : World) : World :=
  mkWorld (sellerTokens w) (redis w) (myntraApiBase w) (clock w) (ticks w)
          (authRemote w) (apiRemote w) (present w) l (console w).

Definition set_console (l : list (string * Thrown)) (w : World) : World :=
  mkWorld (sellerTokens w) (redis w) (myntraApiBase w) (clock w) (ticks w)
          (authRemote w) (apiRemote w) (present w) (sent w) l.

(** ** The monad of [async] code *)

Definition M (A : Type) : Type := World → Outcome A * World.

Definition ret {A} (a : A) : M A := fun w => (Returns a, w).

Definition throw {A} (t : Thrown) : M A := fun w => (Throws t, w).

Definition bind {A B} (m : M A) (k : A → M B) : M B := fun w =>
  match m w with
  | (Returns a, w') => k a w'
  | (Throws t, w') => (Throws t, w')
  end.

(** [try { m } catch (error) { h error }] *)
Definition try_catch {A} (m : M A) (h : Thrown → M A) : M A := fun w =>
  match m w with
  | (Returns a, w') => (Returns a, w')
  | (Throws t, w') => h t w'
  end.

Definition gets {A} (f : World → A) : M A := fun w => (Returns (f w), w).

Declare Scope async_scope.
Delimit Scope async_scope with async.
Notation "x <- m ;; k" := (bind m (fun x => k))
  (at level 100, m at next level, right associativity) : async_scope.
Notation "m ;; k" := (bind m (fun _ => k))
  (at level 100, right associativity) : async_scope.
Local Open Scope async_scope.

(** [Date.now()]: the next reading of the clock.  [clock w n] is what the
    [n]-th call of [Date.now()] returns, and [ticks w] counts the calls
    made so far. *)
Definition Date_now : M Z := fun w =>
  (Returns (clock w (ticks w)), set_ticks (S (ticks w)) w).

(** [console.error(label, error)] *)
Definition console_error (label : string) (error : Thrown) : M unit := fun w =>
  (Returns tt, set_console (console w ++ [(label, error)]) w).

(** [axios.post(url, body)] against the token endpoints. *)
Definition axios_post (url : string) (body : JsVal) : M TokenResponse := fun w =>
  let req := mkRequest "post" url [] body in
  let w' := set_sent (sent w ++ [req]) w in
  match authRemote w (sent w) req with
  | Resolved d => (Returns d, w')
  | Rejected e => (Throws (ErrorObj e), w')
  end.

(** [axios({ method, url, headers, data })] against the resource endpoints. *)
Definition axios (req : Request) : M JsVal := fun w =>
  let w' := set_sent (sent w ++ [req]) w in
  match apiRemote w (sent w) req with
  | Resolved d => (Returns d, w')
  | Rejected e => (Throws (ErrorObj e), w')
  end.

(** A command on [this.redis]: it throws when the next fault says so, and
    when there is no client at all. *)
Definition redis_command {A} (name : string)
    (run : gmap string (Z * JsonText) → A * gmap string (Z * JsonText)) : M A := fun w =>
  match redis w with
  | None =>
      (Throws (ErrorObj (TypeError
         ("Cannot read properties of undefined (reading '" +:+ name +:+ "')"))), w)
  | Some r =>
      match faults r with
      | Some e :: rest =>
          (Throws (ErrorObj e), set_redis (Some (mkRedis (store r) rest)) w)
      | None :: rest =>
          let '(a, s) := run (store r) in
          (Returns a, set_redis (Some (mkRedis s rest)) w)
      | [] =>
          let '(a, s) := run (store r) in
          (Returns a, set_redis (Some (mkRedis s [])) w)
      end
  end.

Definition redis_setEx (key : string) (seconds : Z) (value : JsonText) : M unit :=
  redis_command "setEx" (fun s => (tt, <[key := (seconds, value)]> s)).

Definition redis_get (key : string) : M (option JsonText) :=
  redis_command "get" (fun s => (snd <$> s !! key, s)).

Definition redis_del (key : string) : M unit :=
  redis_command "del" (fun s => (tt, delete key s)).

(** [`myntra_tokens:${sellerId}`] *)
Definition redisKey (sellerId : option string) : string :=
  "myntra_tokens:" +:+ strOf sellerId.

(** ** Token store *)

Definition Map_set (sellerId : option string) (tokens : SellerTokens) : M unit := fun w =>
  (Returns tt, set_sellerTokens (<[sellerId := tokens]> (sellerTokens w)) w).

Definition Map_get (sellerId : option string) : M (option SellerTokens) :=
  gets (fun w => sellerTokens w !! sellerId).

Definition Map_delete (sellerId : option string) : M unit := fun w =>
  (Returns tt, set_sellerTokens (delete sellerId (sellerTokens w)) w).

Definition storeTokens (sellerId : option string) (tokens : SellerTokens) : M unit :=
  r <- gets redis ;;
  if bool_decide (is_Some r) then
    try_catch
      (redis_setEx (redisKey sellerId) (3600 * 24 * 7) (JSON_stringify tokens))
      (fun error =>
         console_error "Failed to store tokens in Redis:" error ;;
         Map_set sellerId tokens)
  else
    Map_set sellerId tokens.

Definition getTokens (sellerId : option string) : M (option SellerTokens) :=
  r <- gets redis ;;
  if bool_decide (is_Some r) then
    try_catch
      (tokensData <- redis_get (redisKey sellerId) ;;
       ret (JSON_parse <$> tokensData))
      (fun error =>
         console_error "Failed to get tokens from Redis:" error ;;
         Map_get sellerId)
  else
    Map_get sellerId.

Definition revokeTokens (sellerId : option string) : M unit :=
  r <- gets redis ;;
  (if bool_decide (is_Some r) then
     try_catch
       (redis_del (redisKey sellerId))
       (fun error => console_error "Failed to delete tokens from Redis:" error)
   else ret tt) ;;
  Map_delete sellerId.

(** ** Session manager *)

Definition refreshBody (refreshToken : option string) : JsVal :=
  JObj [("refresh_token", JStr (strOf refreshToken))].

(** [Date.now() + (response.data.expires_in * 1000)], computed exactly.
    The code computes it in floating point: the two agree when the
    operands and the results are integers a double holds exactly
    ([exactExpiry] below); beyond that the code rounds, and from about
    1.8e305 on it gets [Infinity], which the embedding does not have.  The
    statements about the value of a stored expiry assume [exactExpiry]. *)
Definition expiry (now : Z) (expires_in : option Z) : option Z :=
  (fun n => now + n * 1000)%Z <$> expires_in.

Definition checkAuthentication (sellerId : option string) : M bool :=
  tokens <- getTokens sellerId ;;
  if negb (truthy (tokens ≫= accessToken)) then ret false else
  fresh <- match tokens ≫= expiresOn with
           | Some e =>
               if negb (e =? 0)%Z then now <- Date_now ;; ret (now <? e)%Z
               else ret false
           | None => ret false
           end ;;
  if fresh : bool then ret true else
  (* Try to refresh token *)
  if truthy (tokens ≫= refreshToken) then
    try_catch
      (base <- gets myntraApiBase ;;
       response <- axios_post (base +:+ "/auth/refresh")
                              (refreshBody (tokens ≫= refreshToken)) ;;
       now <- Date_now ;;
       let updatedTokens :=
         mkTokens (access_token response)
                  (orElse (refresh_token response) (tokens ≫= refreshToken))
                  (expiry now (expires_in response))
                  sellerId in
       storeTokens sellerId updatedTokens ;;
       ret true)
      (fun error =>
         console_error "Token refresh failed:" error ;;
         revokeTokens sellerId ;;
         ret false)
  else
    ret false.

(** ** Outbound client *)

Definition makeApiRequest (sellerId : option string) (method endpoint : string)
    (data : JsVal) : M JsVal :=
  tokens <- getTokens sellerId ;;
  if negb (truthy (tokens ≫= accessToken)) then
    throw (ErrorObj (Error "Not authenticated"))
  else
    try_catch
      (base <- gets myntraApiBase ;;
       axios (mkRequest method (base +:+ endpoint)
                [("Authorization", "Bearer " +:+ strOf (tokens ≫= accessToken));
                 ("Content-Type", "application/json")]
                data))
      (fun error => throw (ErrorObj (Error (detailOf error)))).

(** ** Request shaping *)

Definition nl : string := String "010"%char "".

(** [v !== 'all'] *)
Definition isNot (s : string) (v : JsVal) : bool :=
  match v with
  | JStr s' => negb (s' =? s)
  | _ => true
  end.

(** [`${v}`] inside the handlers. *)
Definition toStr (v : JsVal) : M string :=
  match ToString v with
  | Some s => ret s
  | None => throw (ErrorObj (TypeError "Cannot convert object to primitive value"))
  end.

(** [v.toString()]: a method call, which throws on [null] and on an object
    whose own [toString] property is not a function. *)
Definition toString (what : string) (v : JsVal) : M string :=
  match v with
  | JUndefined =>
      throw (ErrorObj (TypeError
        "Cannot read properties of undefined (reading 'toString')"))
  | JNull =>
      throw (ErrorObj (TypeError
        "Cannot read properties of null (reading 'toString')"))
  | JObj props =>
      if bool_decide ("toString" ∈ props.*1)
      then throw (ErrorObj (TypeError (what +:+ ".toString is not a function")))
      else ret "[object Object]"
  | _ => toStr v
  end.

Definition hexDigit (n : nat) : string :=
  match String.get n "0123456789ABCDEF" with
  | Some c => String c ""
  | None => ""
  end.

(** One byte of the [application/x-www-form-urlencoded] serializer. *)
Definition formByte (c : ascii) : string :=
  let n := nat_of_ascii c in
  if (n =? 32)%nat then "+"
  else if ((n =? 42) || (n =? 45) || (n =? 46) || (n =? 95)
           || ((48 <=? n) && (n <=? 57))
           || ((65 <=? n) && (n <=? 90))
           || ((97 <=? n) && (n <=? 122)))%nat
  then String c ""
  else "%" +:+ hexDigit (n / 16) +:+ hexDigit (n mod 16).

Fixpoint formEncode (s : string) : string :=
  match s with
  | EmptyString => ""
  | String c rest => formByte c +:+ formEncode rest
  end.

(** [URLSearchParams]: [append] and [toString]. *)
Definition URLSearchParams := list (string * string).

Definition append (params : URLSearchParams) (name value : string) : URLSearchParams :=
  (params ++ [(name, value)])%list.

Fixpoint params_toString (params : URLSearchParams) : string :=
  match params with
  | [] => ""
  | (k, v) :: rest =>
      let pair := formEncode k +:+ "=" +:+ formEncode v in
      match rest with
      | [] => pair
      | _ => pair +:+ "&" +:+ params_toString rest
      end
  end.

(** The fixed textual template of a tool, filled from the reply: dates,
    locale and number formatting are the environment's.  So is the current
    date that the templates of [updateInventory], [updateOrderStatus] and
    [processReturn] print with [new Date()]: that reading of the clock is
    part of the rendering, and [ticks] counts the calls of [Date.now()]
    only. *)
Definition rendered (tool : string) (args : Args) (data : JsVal) : M ToolResult := fun w =>
  match present w tool args data with
  | Returns t => (Returns (textResult t), w)
  | Throws e => (Throws e, w)
  end.

(** ** Tool handlers *)

(** [if (cond) params.append(name, value)] *)
Definition appendIf (cond : bool) (params : URLSearchParams) (name : string)
    (value : JsVal) : M URLSearchParams :=
  if cond then s <- toStr value ;; ret (append params name s) else ret params.

Definition listProducts (args : Args) : M ToolResult :=
  let status := orDefault (JStr "all") (arg args "status") in
  let category := arg args "category" in
  let limit := orDefault (JNum 50) (arg args "limit") in
  let offset := orDefault (JNum 0) (arg args "offset") in
  let params : URLSearchParams := [] in
  params <- appendIf (isNot "all" status) params "status" status ;;
  params <- appendIf (truthyV category) params "category" category ;;
  l <- toString "limit" limit ;;
  let params := append params "limit" l in
  o <- toString "offset" offset ;;
  let params := append params "offset" o in
  data <- makeApiRequest (seller_id args) "GET" ("/products?" +:+ params_toString params) JUndefined ;;
  rendered "myntra_list_products" args data.

Definition getProduct (args : Args) : M ToolResult :=
  product_id <- toStr (arg args "product_id") ;;
  data <- makeApiRequest (seller_id args) "GET" ("/products/" +:+ product_id) JUndefined ;;
  rendered "myntra_get_product" args data.

Definition createProduct (args : Args) : M ToolResult :=
  let images := arg args "images" in
  let productData :=
    JObj [("sku", arg args "sku"); ("name", arg args "name");
          ("brand", arg args "brand"); ("category", arg args "category");
          ("description", arg args "description"); ("mrp", arg args "mrp");
          ("selling_price", arg args "selling_price");
          ("inventory", arg args "inventory");
          ("images", if truthyV images then images else JArr [])] in
  data <- makeApiRequest (seller_id args) "POST" "/products" productData ;;
  rendered "myntra_create_product" args data.

Definition updateProduct (args : Args) : M ToolResult :=
  product_id <- toStr (arg args "product_id") ;;
  data <- makeApiRequest (seller_id args) "PATCH" ("/products/" +:+ product_id)
            (arg args "updates") ;;
  rendered "myntra_update_product" args data.

Definition updateInventory (args : Args) : M ToolResult :=
  product_id <- toStr (arg args "product_id") ;;
  data <- makeApiRequest (seller_id args) "PATCH"
            ("/products/" +:+ product_id +:+ "/inventory")
            (JObj [("quantity", arg args "quantity")]) ;;
  rendered "myntra_update_inventory" args data.

Definition listOrders (args : Args) : M ToolResult :=
  let status := orDefault (JStr "all") (arg args "status") in
  let from_date := arg args "from_date" in
  let to_date := arg args "to_date" in
  let limit := orDefault (JNum 50) (arg args "limit") in
  let params : URLSearchParams := [] in
  params <- appendIf (isNot "all" status) params "status" status ;;
  params <- appendIf (truthyV from_date) params "from_date" from_date ;;
  params <- appendIf (truthyV to_date) params "to_date" to_date ;;
  l <- toString "limit" limit ;;
  let params := append params "limit" l in
  data <- makeApiRequest (seller_id args) "GET" ("/orders?" +:+ params_toString params) JUndefined ;;
  rendered "myntra_list_orders" args data.

Definition getOrder (args : Args) : M ToolResult :=
  order_id <- toStr (arg args "order_id") ;;
  data <- makeApiRequest (seller_id args) "GET" ("/orders/" +:+ order_id) JUndefined ;;
  rendered "myntra_get_order" args data.

Definition updateOrderStatus (args : Args) : M ToolResult :=
  let tracking_id := arg args "tracking_id" in
  let courier_partner := arg args "courier_partner" in
  let updateData :=
    JObj ([("status", arg args "status")]
          ++ (if truthyV tracking_id then [("tracking_id", tracking_id)] else [])
          ++ (if truthyV courier_partner then [("courier_partner", courier_partner)] else [])) in
  order_id <- toStr (arg args "order_id") ;;
  data <- makeApiRequest (seller_id args) "PATCH"
            ("/orders/" +:+ order_id +:+ "/status") updateData ;;
  rendered "myntra_update_order_status" args data.

Definition getReturns (args : Args) : M ToolResult :=
  let status := orDefault (JStr "pending") (arg args "status") in
  let limit := orDefault (JNum 25) (arg args "limit") in
  let params : URLSearchParams := [] in
  params <- appendIf (isNot "all" status) params "status" status ;;
  l <- toString "limit" limit ;;
  let params := append params "limit" l in
  data <- makeApiRequest (seller_id args) "GET" ("/returns?" +:+ params_toString params) JUndefined ;;
  rendered "myntra_get_returns" args data.

Definition processReturn (args : Args) : M ToolResult :=
  let reason := arg args "reason" in
  let requestData :=
    JObj ([("action", arg args "action")]
          ++ (if truthyV reason then [("reason", reason)] else [])) in
  return_id <- toStr (arg args "return_id") ;;
  data <- makeApiRequest (seller_id args) "POST"
            ("/returns/" +:+ return_id +:+ "/process") requestData ;;
  rendered "myntra_process_return" args data.

Definition getAnalytics (args : Args) : M ToolResult :=
  let from_date := arg args "from_date" in
  let to_date := arg args "to_date" in
  let params : URLSearchParams := [] in
  metric <- toStr (arg args "metric") ;;
  let params := append params "metric" metric in
  params <- appendIf (truthyV from_date) params "from_date" from_date ;;
  params <- appendIf (truthyV to_date) params "to_date" to_date ;;
  data <- makeApiRequest (seller_id args) "GET" ("/analytics?" +:+ params_toString params) JUndefined ;;
  rendered "myntra_get_analytics" args data.

Definition handleMyntraOperation (operation : string) (args : Args) : M ToolResult :=
  if operation =? "myntra_list_products" then listProducts args
  else if operation =? "myntra_get_product" then getProduct args
  else if operation =? "myntra_create_product" then createProduct args
  else if operation =? "myntra_update_product" then updateProduct args
  else if operation =? "myntra_update_inventory" then updateInventory args
  else if operation =? "myntra_list_orders" then listOrders args
  else if operation =? "myntra_get_order" then getOrder args
  else if operation =? "myntra_update_order_status" then updateOrderStatus args
  else if operation =? "myntra_get_returns" then getReturns args
  else if operation =? "myntra_process_return" then processReturn args
  else if operation =? "myntra_get_analytics" then getAnalytics args
  else throw (ErrorObj (Error ("Unknown operation: " +:+ operation))).

(** ** Authentication tools *)

Definition tokenBody (args : Args) : JsVal :=
  JObj [("seller_id", JStr (strOf (seller_id args)));
        ("api_key", JStr (strOf (api_key args)));
        ("api_secret", JStr (strOf (api_secret args)))].

(** [Math.floor(response.data.expires_in / 60)], computed exactly; the code
    computes it in floating point, which differs for lifetimes beyond the
    integers a double holds exactly. *)
Definition minutes (expires_in : option Z) : option Z :=
  (fun n => n / 60)%Z <$> expires_in.

Definition handleAuthenticate (args : Args) : M ToolResult :=
  try_catch
    (if negb (truthy (seller_id args)) || negb (truthy (api_key args))
        || negb (truthy (api_secret args))
     then
       ret (errorResult
              "Error: seller_id, api_key, and api_secret are required for authentication.")
     else
       (* Check if already authenticated *)
       already <- checkAuthentication (seller_id args) ;;
       if already : bool then
         ret (textResult ("Already authenticated with Myntra!" +:+ nl +:+ nl
                          +:+ "Seller ID: " +:+ strOf (seller_id args)))
       else
         (* Authenticate with Myntra API *)
         base <- gets myntraApiBase ;;
         response <- axios_post (base +:+ "/auth/token") (tokenBody args) ;;
         now <- Date_now ;;
         let tokens :=
           mkTokens (access_token response) (refresh_token response)
                    (expiry now (expires_in response)) (seller_id args) in
         storeTokens (seller_id args) tokens ;;
         ret (textResult ("Successfully authenticated with Myntra!" +:+ nl +:+ nl
                          +:+ "Seller ID: " +:+ strOf (seller_id args) +:+ nl
                          +:+ "Token expires in: "
                          +:+ numOf (minutes (expires_in response)) +:+ " minutes")))
    (fun error =>
       ret (errorResult ("Authentication failed: " +:+ detailOf error))).

Definition handleStatus (sellerId : option string) : M ToolResult :=
  if negb (truthy sellerId) then
    ret (errorResult "Error: seller_id is required")
  else
    connected <- checkAuthentication sellerId ;;
    if connected : bool then
      try_catch
        (data <- makeApiRequest sellerId "GET" "/account/info" JUndefined ;;
         rendered "myntra_status" (mkArgs sellerId None None ∅) data)
        (fun error =>
           ret (textResult ("Connected but unable to fetch details: " +:+ messageOf error)))
    else
      ret (textResult ("**Not connected to Myntra**" +:+ nl +:+ nl
                       +:+ "Run myntra_authenticate to get started.")).

(** ** Tool dispatch gateway *)

(** The handler registered for [CallToolRequestSchema]; [args] is
    [request.params.arguments], which may be absent. *)
Definition dispatch (name : string) (args : option Args) : M ToolResult :=
  let sellerId := args ≫= seller_id in
  try_catch
    (if name =? "myntra_authenticate" then handleAuthenticate (default noArgs args)
     else if name =? "myntra_status" then handleStatus sellerId
     else if negb (truthy sellerId) then
       ret (errorResult "Error: seller_id is required for all Myntra operations.")
     else
       authenticated <- checkAuthentication sellerId ;;
       if negb authenticated then
         ret (errorResult
                "Not authenticated with Myntra. Please authenticate first using myntra_authenticate.")
       else
         handleMyntraOperation name (default noArgs args))
    (fun error =>
       console_error ("Error in " +:+ name +:+ ":") error ;;
       throw (McpError InternalError
                ("Error executing " +:+ name +:+ ": " +:+ messageOf error))).

(** ** HTTP surface: login, status, logout *)

(** A response sent with [res.status(code).json(body)]: [json] is the
    object given to [json()], so a property whose value is [undefined] is
    in it although it does not reach the wire.  The [timestamp] property
    of the bodies is left out, and with it the [new Date()] that fills it:
    [ticks] counts the calls of [Date.now()] only. *)
Record HttpResponse := mkResponse {
  status : Z;
  json : list (string * JsVal)
}.

Record LoginBody := mkLogin {
  login_sellerId : option string;
  login_apiKey : option string;
  login_apiSecret : option string
}.

Definition optStr (s : option string) : JsVal :=
  match s with
  | Some s => JStr s
  | None => JUndefined
  end.

Definition optNum (n : option Z) : JsVal :=
  match n with
  | Some n => JNum n
  | None => JUndefined
  end.

(** [POST /auth/login] *)
Definition auth_login (body : LoginBody) : M HttpResponse :=
  let sellerId := login_sellerId body in
  if negb (truthy sellerId) || negb (truthy (login_apiKey body))
     || negb (truthy (login_apiSecret body))
  then
    ret (mkResponse 400
           [("error", JStr "Missing required fields");
            ("required", JArr [JStr "sellerId"; JStr "apiKey"; JStr "apiSecret"])])
  else
    try_catch
      (base <- gets myntraApiBase ;;
       response <- axios_post (base +:+ "/auth/token")
                     (JObj [("seller_id", JStr (strOf sellerId));
                            ("api_key", JStr (strOf (login_apiKey body)));
                            ("api_secret", JStr (strOf (login_apiSecret body)))]) ;;
       now <- Date_now ;;
       let tokens :=
         mkTokens (access_token response) (refresh_token response)
                  (expiry now (expires_in response)) sellerId in
       storeTokens sellerId tokens ;;
       ret (mkResponse 200
              [("success", JBool true);
               ("message", JStr "Authentication successful");
               ("sellerId", optStr sellerId);
               ("expiresIn", optNum (expires_in response))]))
      (fun error =>
         console_error "Authentication error:" error ;;
         ret (mkResponse 401
                [("error", JStr "Authentication failed");
                 ("details", JStr (detailOf error))])).

(** [GET /auth/status/:sellerId] *)
Definition auth_status (param_sellerId : string) : M HttpResponse :=
  try_catch
    (isAuthenticated <- checkAuthentication (Some param_sellerId) ;;
     if isAuthenticated : bool then
       tokens <- getTokens (Some param_sellerId) ;;
       expiresIn <- match tokens ≫= expiresOn with
                    | Some e =>
                        if negb (e =? 0)%Z
                        then now <- Date_now ;; ret ((e - now) / 1000)%Z
                        else ret 0%Z
                    | None => ret 0%Z
                    end ;;
       ret (mkResponse 200
              [("authenticated", JBool true);
               ("sellerId", optStr (tokens ≫= sellerId));
               ("expiresIn", JNum expiresIn)])
     else
       ret (mkResponse 200 [("authenticated", JBool false)]))
    (fun error =>
       ret (mkResponse 500
              [("error", JStr "Failed to check authentication status");
               ("details", JStr (messageOf error))])).

(** [POST /auth/logout/:sellerId] *)
Definition auth_logout (sellerId : string) : M HttpResponse :=
  try_catch
    (revokeTokens (Some sellerId) ;;
     ret (mkResponse 200
            [("success", JBool true);
             ("message", JStr "Logged out successfully")]))
    (fun error =>
       ret (mkResponse 500
              [("error", JStr "Failed to logout");
               ("details", JStr (messageOf error))])).

(** ** Observations used in the statements *)

(** What the durable cache holds, when one is configured. *)
Definition durable (w : World) : option (gmap string (Z * JsonText)) :=
  store <$> redis w.

(** The record the durable cache holds for an account. *)
Definition durableTokens (sellerId : option string) (w : World) : option SellerTokens :=
  durable w ≫= (fun s => JSON_parse ∘ snd <$> s !! redisKey sellerId).

(** No Session for the account in either backend of the token store. *)
Definition neverAuthenticated (sellerId : option string) (w : World) : Prop :=
  sellerTokens w !! sellerId = None ∧ durableTokens sellerId w = None.

(** The token store does not fall back: there is no durable cache, or every
    coming command on it is served. *)
Definition reliable (w : World) : Prop :=
  (faults <$> redis w) = None ∨ (faults <$> redis w) = Some [].

(** The next Redis command is served (or there is no durable cache). *)
Definition nextCommandServed (w : World) : Prop :=
  ∀ r e rest, redis w = Some r → faults r ≠ Some e :: rest.

(** The Session [getTokens] finds for the account can be used as it is: it
    has an access token and the next reading of the clock is before its
    expiry. *)
Definition currentlyValid (sellerId : option string) (w : World) : bool :=
  match getTokens sellerId w with
  | (Returns (Some t), _) =>
      truthy (accessToken t)
      && match expiresOn t with
         | Some e => negb (e =? 0)%Z && (clock w (ticks w) <? e)%Z
         | None => false
         end
  | _ => false
  end.

Definition tokenRequest (w : World) (args : Args) : Request :=
  mkRequest "post" (myntraApiBase w +:+ "/auth/token") [] (tokenBody args).

Definition refreshRequest (w : World) (refreshToken : option string) : Request :=
  mkRequest "post" (myntraApiBase w +:+ "/auth/refresh") [] (refreshBody refreshToken).

(** How many of the requests went to the token-issuance endpoint. *)
Definition tokenCalls (base : string) (l : list Request) : nat :=
  length (filter (fun r => url r = base +:+ "/auth/token") l).

(** The result text names the account: [... Seller ID: <id> ...]. *)
Definition reportsSeller (sellerId : option string) (r : ToolResult) : Prop :=
  ∃ greeting rest,
    content r = [mkText "text" (greeting +:+ nl +:+ nl +:+ "Seller ID: "
                                +:+ strOf sellerId +:+ rest)].

(** Every stored Session names the key it is stored under, in the
    in-process map and in the durable cache. *)
Definition keyed (w : World) : Prop :=
  map_Forall (fun k t => sellerId t = k) (sellerTokens w)
  ∧ from_option
      (map_Forall (fun key v => key = redisKey (sellerId (JSON_parse v.2))))
      True (durable w).

(** The request an authenticated tool call sends. *)
Definition bearerRequest (w : World) (token method endpoint : string) (data : JsVal) : Request :=
  mkRequest method (myntraApiBase w +:+ endpoint)
    [("Authorization", "Bearer " +:+ token); ("Content-Type", "application/json")]
    data.

Definition carriesBearer (token : string) (r : Request) : Prop :=
  headers r = [("Authorization", "Bearer " +:+ token);
               ("Content-Type", "application/json")].

(** The record the token store answers with when it does not fall back: the
    durable cache's when one is configured, the in-process map's otherwise. *)
Definition held (sellerId : option string) (w : World) : option SellerTokens :=
  match redis w with
  | Some _ => durableTokens sellerId w
  | None => sellerTokens w !! sellerId
  end.

(** The refresh attempt of [checkAuthentication] (its [try] statement), on
    its own. *)
Definition refreshAttempt (sellerId : option string) (tokens : option SellerTokens) : M bool :=
  try_catch
    (base <- gets myntraApiBase ;;
     response <- axios_post (base +:+ "/auth/refresh")
                            (refreshBody (tokens ≫= refreshToken)) ;;
     now <- Date_now ;;
     let updatedTokens :=
       mkTokens (access_token response)
                (orElse (refresh_token response) (tokens ≫= refreshToken))
                (expiry now (expires_in response))
                sellerId in
     storeTokens sellerId updatedTokens ;;
     ret true)
    (fun error =>
       console_error "Token refresh failed:" error ;;
       revokeTokens sellerId ;;
       ret false).

(** The Session a successful refresh writes. *)
Definition refreshed (sellerId : option string) (old : SellerTokens)
    (now : Z) (d : TokenResponse) : SellerTokens :=
  mkTokens (access_token d) (orElse (refresh_token d) (refreshToken old))
           (expiry now (expires_in d)) sellerId.

(** The Session is stale: it has no usable expiry, or the next reading of
    the clock is not before it. *)
Definition stale (t : SellerTokens) (w : World) : Prop :=
  ∀ e, expiresOn t = Some e → e ≠ 0%Z → (e ≤ clock w (ticks w))%Z.

(** A computation that does not touch the world: it returns the same value,
    or throws the same exception, wherever it runs. *)
Definition pure {A} (m : M A) : Prop :=
  (∃ a, ∀ w, m w = (Returns a, w)) ∨ (∃ t, ∀ w, m w = (Throws t, w)).

(** The computation sends nothing, or one request carrying the token. *)
Definition sendsWithBearer {A} (token : string) (m : M A) (w : World) : Prop :=
  ∃ out w', m w = (out, w')
    ∧ (sent w' = sent w
       ∨ ∃ req, sent w' = sent w ++ [req] ∧ carriesBearer token req).

(** The collaborators and the configuration are the same in both worlds. *)
Definition sameEnv (w w' : World) : Prop :=
  myntraApiBase w' = myntraApiBase w ∧ clock w' = clock w
  ∧ authRemote w' = authRemote w ∧ apiRemote w' = apiRemote w
  ∧ present w' = present w.

(** Both backends of the token store hold the same records in both worlds. *)
Definition sameSessions (w w' : World) : Prop :=
  sellerTokens w' = sellerTokens w ∧ durable w' = durable w.

(** A computation that keeps a property of the world, whatever it returns. *)
Definition preserves {A} (I : World → Prop) (m : M A) : Prop :=
  ∀ w, I w → I (m w).2.

(** A computation that never throws. *)
Definition total {A} (m : M A) : Prop :=
  ∀ w, ∃ a w', m w = (Returns a, w').


(** The message each entry of the catalog gives when [seller_id] is missing. *)
Definition validationMessage (name : string) : string :=
  if name =? "myntra_authenticate" then
    "Error: seller_id, api_key, and api_secret are required for authentication."
  else if name =? "myntra_status" then "Error: seller_id is required"
  else "Error: seller_id is required for all Myntra operations.".

Definition notAuthenticatedMessage : string :=
  "Not authenticated with Myntra. Please authenticate first using myntra_authenticate.".

(** What the dispatcher raises for an exception caught around a handler. *)
Definition raised (name : string) (error : Thrown) : Thrown :=
  McpError InternalError ("Error executing " +:+ name +:+ ": " +:+ messageOf error).

(** The world after the dispatcher has logged the exception it caught. *)
Definition logged (name : string) (error : Thrown) (w : World) : World :=
  set_console (console w ++ [("Error in " +:+ name +:+ ":", error)]) w.

(** ** Scenario worlds

    A stub remote that issues [T1]/[R1] for an hour and serves every
    resource call, a clock standing at 1000 ms, no durable cache. *)

Definition issued : TokenResponse :=
  mkTokenResponse (Some "T1") (Some "R1") (Some 3600%Z).

Definition stubWorld : World :=
  mkWorld ∅ None "https://api.myntra.com/seller"
    (fun _ => 1000%Z) 0
    (fun _ _ => Resolved issued)
    (fun _ _ => Resolved (JObj []))
    (fun _ _ _ => Returns "rendered")
    [] [].

(** A remote that refuses every call with the given error. *)
Definition refusing (e : JsError) (w : World) : World :=
  mkWorld (sellerTokens w) (redis w) (myntraApiBase w) (clock w) (ticks w)
    (fun _ _ => Rejected e) (fun _ _ => Rejected e) (present w) (sent w) (console w).

Definition sessionS1 (expiresOn : Z) : SellerTokens :=
  mkTokens (Some "T0") (Some "R0") (Some expiresOn) (Some "S1").

(** [S1] holds a Session in the in-process map. *)
Definition withSession (t : SellerTokens) (w : World) : World :=
  set_sellerTokens (<[sellerId t := t]> (sellerTokens w)) w.

(** A durable cache holding the given records, with the given faults ahead. *)
Definition withRedis (held : list SellerTokens) (fl : list (option JsError)) (w : World) : World :=
  set_redis (Some (mkRedis
    (list_to_map ((fun t => (redisKey (sellerId t), (604800%Z, JSON_stringify t))) <$> held))
    fl)) w.

Definition credentialsS1 : Args := mkArgs (Some "S1") (Some "k") (Some "s") ∅.
Definition onlySellerS1 : Args := mkArgs (Some "S1") None None ∅.

Definition outage : JsError :=
  mkError "Request failed with status code 500" (Some "Internal failure").

(** [S1] holds a Session good until 5000 ms; the remote refuses every call. *)
Definition outageWorld : World :=
  refusing outage (withSession (sessionS1 5000) stubWorld).

Definition orderO1 : Args := mkArgs (Some "S1") None None {["order_id" := JStr "O1"]}.

(** A durable cache that holds [S1]'s Session and fails its next command. *)
Definition flakyWorld : World :=
  withRedis [sessionS1 5000] [Some (Error "Socket closed unexpectedly")] stubWorld.

(** [S1]'s Session ran out at 500 ms and the remote refuses every call. *)
Definition staleOutageWorld : World :=
  refusing outage (withSession (sessionS1 500) stubWorld).

(** The durable cache holds [S1]'s stale Session, serves the next command
    and fails the one after it. *)
Definition staleCacheWorld : World :=
  withRedis [sessionS1 500] [None; Some (Error "Socket closed unexpectedly")] stubWorld.

(** A remote that rejects the first token call and serves the later ones. *)
Definition recovering (w : World) : World :=
  mkWorld (sellerTokens w) (redis w) (myntraApiBase w) (clock w) (ticks w)
    (fun earlier _ => match earlier with
                      | [] => Rejected outage
                      | _ => Resolved issued
                      end)
    (apiRemote w) (present w) (sent w) (console w).

(** A durable cache that is empty and fails its second command. *)
Definition emptyFlakyWorld : World :=
  withRedis [] [None; Some (Error "Socket closed unexpectedly")] stubWorld.

(** ** Tool catalog

    What the handler registered for [ListToolsRequestSchema] returns: for
    each tool its name and its input schema.  A property is kept with its
    [type], the values of its [enum] (none when it has no [enum]) and its
    [default]; the [description] texts and the [items] of the one array
    property are left out. *)

Record PropertySchema := mkProperty {
  property_type : string;
  property_enum : list string;
  property_default : option JsVal
}.

Record Tool := mkTool {
  tool_name : string;
  properties : list (string * PropertySchema);
  required : list string
}.

Definition ofType (type : string) : PropertySchema := mkProperty type [] None.

Definition listTools : list Tool :=
  [ mkTool "myntra_authenticate"
      [("seller_id", ofType "string"); ("api_key", ofType "string");
       ("api_secret", ofType "string")]
      ["seller_id"; "api_key"; "api_secret"];
    mkTool "myntra_status"
      [("seller_id", ofType "string")]
      ["seller_id"];
    mkTool "myntra_list_products"
      [("seller_id", ofType "string");
       ("status", mkProperty "string"
                    ["active"; "inactive"; "pending"; "rejected"; "all"]
                    (Some (JStr "all")));
       ("category", ofType "string");
       ("limit", mkProperty "number" [] (Some (JNum 50)));
       ("offset", mkProperty "number" [] (Some (JNum 0)))]
      ["seller_id"];
    mkTool "myntra_get_product"
      [("seller_id", ofType "string"); ("product_id", ofType "string")]
      ["seller_id"; "product_id"];
    mkTool "myntra_create_product"
      [("seller_id", ofType "string"); ("sku", ofType "string");
       ("name", ofType "string"); ("brand", ofType "string");
       ("category", ofType "string"); ("description", ofType "string");
       ("mrp", ofType "number"); ("selling_price", ofType "number");
       ("inventory", ofType "number"); ("images", ofType "array")]
      ["seller_id"; "sku"; "name"; "brand"; "category"; "mrp"; "selling_price";
       "inventory"];
    mkTool "myntra_update_product"
      [("seller_id", ofType "string"); ("product_id", ofType "string");
       ("updates", ofType "object")]
      ["seller_id"; "product_id"; "updates"];
    mkTool "myntra_update_inventory"
      [("seller_id", ofType "string"); ("product_id", ofType "string");
       ("quantity", ofType "number")]
      ["seller_id"; "product_id"; "quantity"];
    mkTool "myntra_list_orders"
      [("seller_id", ofType "string");
       ("status", mkProperty "string"
                    ["pending"; "confirmed"; "shipped"; "delivered"; "cancelled";
                     "returned"; "all"]
                    (Some (JStr "all")));
       ("from_date", ofType "string"); ("to_date", ofType "string");
       ("limit", mkProperty "number" [] (Some (JNum 50)))]
      ["seller_id"];
    mkTool "myntra_get_order"
      [("seller_id", ofType "string"); ("order_id", ofType "string")]
      ["seller_id"; "order_id"];
    mkTool "myntra_update_order_status"
      [("seller_id", ofType "string"); ("order_id", ofType "string");
       ("status", mkProperty "string" ["ready_to_ship"; "shipped"; "cancelled"] None);
       ("tracking_id", ofType "string"); ("courier_partner", ofType "string")]
      ["seller_id"; "order_id"; "status"];
    mkTool "myntra_get_returns"
      [("seller_id", ofType "string");
       ("status", mkProperty "string"
                    ["pending"; "approved"; "rejected"; "completed"; "all"]
                    (Some (JStr "pending")));
       ("limit", mkProperty "number" [] (Some (JNum 25)))]
      ["seller_id"];
    mkTool "myntra_process_return"
      [("seller_id", ofType "string"); ("return_id", ofType "string");
       ("action", mkProperty "string" ["approve"; "reject"] None);
       ("reason", ofType "string")]
      ["seller_id"; "return_id"; "action"];
    mkTool "myntra_get_analytics"
      [("seller_id", ofType "string");
       ("metric", mkProperty "string"
                    ["sales"; "orders"; "revenue"; "top_products"; "inventory_health"]
                    (Some (JStr "sales")));
       ("from_date", ofType "string"); ("to_date", ofType "string")]
      ["seller_id"; "metric"] ].

(** ** Probes, metrics and CORS *)

Definition redis_ping : M string :=
  redis_command "ping" (fun s => ("PONG", s)).

(** [GET /ready] *)
Definition ready : M HttpResponse :=
  try_catch
    (r <- gets redis ;;
     (if bool_decide (is_Some r) then redis_ping ;; ret tt else ret tt) ;;
     ret (mkResponse 200 [("status", JStr "ready")]))
    (fun error =>
       ret (mkResponse 503
              [("status", JStr "not ready"); ("error", JStr (messageOf error))])).

(** The [active_connections] line of [GET /metrics]:
    [this.sellerTokens.size]. *)
Definition active_connections (w : World) : nat := size (sellerTokens w).

(** [s.split(',')] *)
Fixpoint split (s : string) : list string :=
  match s with
  | EmptyString => [""]
  | String c rest =>
      if Ascii.eqb c ","%char then "" :: split rest
      else match split rest with
           | piece :: pieces => String c piece :: pieces
           | [] => [String c ""]
           end
  end.

(** [process.env.ALLOWED_ORIGINS?.split(',') || [...]] *)
Definition allowedOrigins (ALLOWED_ORIGINS : option string) : list string :=
  match ALLOWED_ORIGINS with
  | Some s => split s
  | None => ["https://claude.ai"; "https://chatgpt.com"; "http://localhost:3000"]
  end.

(** The [origin] callback given to [cors]: [Returns true] is
    [callback(null, true)], [Throws] is [callback(new Error(...))]. *)
Definition corsOrigin (ALLOWED_ORIGINS : option string) (origin : option string)
    : Outcome bool :=
  if negb (truthy origin) || bool_decide (strOf origin ∈ allowedOrigins ALLOWED_ORIGINS)
  then Returns true
  else Throws (ErrorObj (Error "Not allowed by CORS")).

(** ** Further observations *)

(** The argument object with one more property. *)
Definition withField (name : string) (v : JsVal) (args : Args) : Args :=
  mkArgs (seller_id args) (api_key args) (api_secret args)
         (<[name := v]> (fields args)).

(** The optional properties a handler uses only behind a truth test
    ([if (x)], [x || []]), by tool. *)
Definition guarded : list (string * string) :=
  [("myntra_list_products", "category");
   ("myntra_create_product", "images");
   ("myntra_list_orders", "from_date"); ("myntra_list_orders", "to_date");
   ("myntra_update_order_status", "tracking_id");
   ("myntra_update_order_status", "courier_partner");
   ("myntra_process_return", "reason");
   ("myntra_get_analytics", "from_date"); ("myntra_get_analytics", "to_date")].

(** The tools of the catalog that go through [handleMyntraOperation]. *)
Definition operationTool (t : Tool) : Prop :=
  t ∈ listTools ∧ tool_name t ≠ "myntra_authenticate" ∧ tool_name t ≠ "myntra_status".

(** Every record of the durable cache was written with the seven-day
    expiry. *)
Definition sevenDays (w : World) : Prop :=
  from_option (map_Forall (fun _ v => v.1 = 604800%Z)) True (durable w).

(** One of the fields is missing from the login body. *)
Definition incomplete (body : LoginBody) : bool :=
  negb (truthy (login_sellerId body)) || negb (truthy (login_apiKey body))
  || negb (truthy (login_apiSecret body)).

Definition loginRequest (w : World) (body : LoginBody) : Request :=
  mkRequest "post" (myntraApiBase w +:+ "/auth/token") []
    (JObj [("seller_id", JStr (strOf (login_sellerId body)));
           ("api_key", JStr (strOf (login_apiKey body)));
           ("api_secret", JStr (strOf (login_apiSecret body)))]).

(** [l.join(',')] *)
Fixpoint join (l : list string) : string :=
  match l with
  | [] => ""
  | [x] => x
  | x :: rest => x +:+ "," +:+ join rest
  end.

(** The character [,] does not occur in the string. *)
Fixpoint commaFree (s : string) : bool :=
  match s with
  | EmptyString => true
  | String c rest => negb (Ascii.eqb c ","%char) && commaFree rest
  end.

(** What a tool requests when it is called with [seller_id] and nothing
    else: method, endpoint and body. *)
Definition sellerOnlyRequest (name : string) : string * string * JsVal :=
  if name =? "myntra_list_products" then ("GET", "/products?limit=50&offset=0", JUndefined)
  else if name =? "myntra_get_product" then ("GET", "/products/undefined", JUndefined)
  else if name =? "myntra_create_product" then
    ("POST", "/products",
     JObj [("sku", JUndefined); ("name", JUndefined); ("brand", JUndefined);
           ("category", JUndefined); ("description", JUndefined); ("mrp", JUndefined);
           ("selling_price", JUndefined); ("inventory", JUndefined);
           ("images", JArr [])])
  else if name =? "myntra_update_product" then ("PATCH", "/products/undefined", JUndefined)
  else if name =? "myntra_update_inventory" then
    ("PATCH", "/products/undefined/inventory", JObj [("quantity", JUndefined)])
  else if name =? "myntra_list_orders" then ("GET", "/orders?limit=50", JUndefined)
  else if name =? "myntra_get_order" then ("GET", "/orders/undefined", JUndefined)
  else if name =? "myntra_update_order_status" then
    ("PATCH", "/orders/undefined/status", JObj [("status", JUndefined)])
  else if name =? "myntra_get_returns" then
    ("GET", "/returns?status=pending&limit=25", JUndefined)
  else if name =? "myntra_process_return" then
    ("POST", "/returns/undefined/process", JObj [("action", JUndefined)])
  else ("GET", "/analytics?metric=undefined", JUndefined).

(** The exception of [handleMyntraOperation]'s [default] case. *)
Definition unknownOperation (name : string) : Thrown :=
  ErrorObj (Error ("Unknown operation: " +:+ name)).

(** The [case] labels of [handleMyntraOperation]'s [switch]. *)
Definition operationNames : list string :=
  ["myntra_list_products"; "myntra_get_product"; "myntra_create_product";
   "myntra_update_product"; "myntra_update_inventory"; "myntra_list_orders";
   "myntra_get_order"; "myntra_update_order_status"; "myntra_get_returns";
   "myntra_process_return"; "myntra_get_analytics"].

(** A durable cache is configured and serves every command, and the
    in-process map holds no record outside [m]. *)
Definition servedByCache (m : gmap (option string) SellerTokens) (w : World) : Prop :=
  is_Some (redis w) ∧ reliable w ∧ sellerTokens w ⊆ m.

(** ** Numbers the embedding holds exactly

    The code computes in double-precision floating point; the embedding
    computes in [Z].  The two agree on the integers a double holds exactly
    (up to 2^53 in magnitude), as long as the results stay among them. *)
Definition safeInteger (n : Z) : Prop :=
  (- 9007199254740992 ≤ n ≤ 9007199254740992)%Z.

(** [expiry now expires_in] is the number the code computes: the reading of
    the clock, the product and the sum are integers a double holds exactly,
    so nothing is rounded, nothing overflows to [Infinity], and
    [JSON.stringify] writes the digits that [JSON.parse] reads back.  A
    reply without [expires_in] gives [NaN] in the code and [None] here,
    which behave alike. *)
Definition exactExpiry (now : Z) (expires_in : option Z) : Prop :=
  match expires_in with
  | Some n =>
      safeInteger now ∧ safeInteger (n * 1000) ∧ safeInteger (now + n * 1000)
  | None => True
  end.

(** The Session [getTokens] finds for the account has an expiry that a
    double holds exactly: it is the record the code holds, in memory and
    after a round trip through JSON. *)
Definition exactlyKept (sellerId : option string) (w : World) : Prop :=
  ∀ t w' e, getTokens sellerId w = (Returns (Some t), w') →
            expiresOn t = Some e → safeInteger e.

(** The text of a successful [myntra_authenticate] for the account: one of
    its two fixed texts, in which only the number of minutes varies. *)
Definition namesAccount (sellerId : option string) (r : ToolResult) : Prop :=
  r = textResult ("Already authenticated with Myntra!" +:+ nl +:+ nl
                  +:+ "Seller ID: " +:+ strOf sellerId)
  ∨ ∃ figure,
      r = textResult ("Successfully authenticated with Myntra!" +:+ nl +:+ nl
                      +:+ "Seller ID: " +:+ strOf sellerId +:+ nl
                      +:+ "Token expires in: " +:+ figure +:+ " minutes").

(** What the dispatcher makes of the outcome of the tool handler it has
    called: a result is returned as it is, an exception is logged and
    raised again as an [McpError]. *)
Definition afterGates (name : string) (outcome : Outcome ToolResult * World)
    : Outcome ToolResult * World :=
  match outcome with
  | (Returns r, w) => (Returns r, w)
  | (Throws error, w) => (Throws (raised name error), logged name error w)
  end.

(** ** The monad's combinators *)

Lemma bind_Returns {A B} (m : M A) (k : A → M B) w a w' :
  m w = (Returns a, w') → bind m k w = k a w'.
Proof. unfold bind. by intros ->. Qed.

Lemma bind_Throws {A B} (m : M A) (k : A → M B) w t w' :
  m w = (Throws t, w') → bind m k w = (Throws t, w').
Proof. unfold bind. by intros ->. Qed.

Lemma try_catch_Returns {A} (m : M A) h w a w' :
  m w = (Returns a, w') → try_catch m h w = (Returns a, w').
Proof. unfold try_catch. by intros ->. Qed.

Lemma total_ret {A} (a : A) : total (ret a).
Proof. intros w. by exists a, w. Qed.

Lemma total_gets {A} (f : World → A) : total (gets f).
Proof. intros w. by exists (f w), w. Qed.

Lemma total_bind {A B} (m : M A) (k : A → M B) :
  total m → (∀ a, total (k a)) → total (bind m k).
Proof.
  intros Hm Hk w. destruct (Hm w) as (a & w' & E).
  rewrite (bind_Returns _ _ _ _ _ E). apply Hk.
Qed.

(** A [try] whose [catch] block cannot throw never throws. *)
Lemma total_try_catch {A} (m : M A) (h : Thrown → M A) :
  (∀ t, total (h t)) → total (try_catch m h).
Proof.
  intros Hh w. unfold try_catch.
  destruct (m w) as [[a|t] w']; [by exists a, w' | apply Hh].
Qed.

Lemma total_if {A} (b : bool) (m1 m2 : M A) :
  total m1 → total m2 → total (if b then m1 else m2).
Proof. by destruct b. Qed.

Lemma total_Date_now : total Date_now.
Proof. intros w. by eexists _, _. Qed.

Lemma total_console_error label error : total (console_error label error).
Proof. intros w. by eexists _, _. Qed.

Lemma total_Map_set sellerId tokens : total (Map_set sellerId tokens).
Proof. intros w. by eexists _, _. Qed.

Lemma total_Map_get sellerId : total (Map_get sellerId).
Proof. intros w. by eexists _, _. Qed.

Lemma total_Map_delete sellerId : total (Map_delete sellerId).
Proof. intros w. by eexists _, _. Qed.

Create HintDb total discriminated.
#[local] Hint Resolve total_ret total_gets total_Date_now total_console_error
  total_Map_set total_Map_get total_Map_delete : total.

Ltac total_step :=
  lazymatch goal with
  | |- total (bind _ _) => apply total_bind; [|intros ?]
  | |- total (try_catch _ _) => apply total_try_catch; intros ?
  | |- total (if _ then _ else _) => apply total_if
  | |- total (match ?x with _ => _ end) => destruct x
  | |- _ => solve [auto with total]
  end.

Lemma total_storeTokens sellerId tokens : total (storeTokens sellerId tokens).
Proof. unfold storeTokens. repeat total_step. Qed.

Lemma total_getTokens sellerId : total (getTokens sellerId).
Proof. unfold getTokens. repeat total_step. Qed.

Lemma total_revokeTokens sellerId : total (revokeTokens sellerId).
Proof. unfold revokeTokens. repeat total_step. Qed.

#[local] Hint Resolve total_storeTokens total_getTokens total_revokeTokens : total.

Lemma total_checkAuthentication sellerId : total (checkAuthentication sellerId).
Proof. unfold checkAuthentication. repeat total_step. Qed.

#[local] Hint Resolve total_checkAuthentication : total.

Lemma total_handleAuthenticate args : total (handleAuthenticate args).
Proof. unfold handleAuthenticate. repeat total_step. Qed.

Lemma total_handleStatus sellerId : total (handleStatus sellerId).
Proof. unfold handleStatus. repeat total_step. Qed.

(** ** Properties kept by every entry point

    A property of the world that survives the elementary updates (a clock
    reading, a log line, a request sent, a Redis command consumed, a write
    or delete of a record that names its own key) survives every function
    of the server. *)

Lemma preserves_ret {A} I (a : A) : preserves I (ret a).
Proof. by intros w. Qed.

Lemma preserves_throw {A} I t : preserves I (@throw A t).
Proof. by intros w. Qed.

Lemma preserves_gets {A} I (f : World → A) : preserves I (gets f).
Proof. by intros w. Qed.

Lemma preserves_bind {A B} I (m : M A) (k : A → M B) :
  preserves I m → (∀ a, preserves I (k a)) → preserves I (bind m k).
Proof.
  intros Hm Hk w Hw. specialize (Hm w Hw). unfold bind.
  destruct (m w) as [[a|t] w']; simpl in *; [by apply Hk | done].
Qed.

Lemma preserves_try_catch {A} I (m : M A) (h : Thrown → M A) :
  preserves I m → (∀ t, preserves I (h t)) → preserves I (try_catch m h).
Proof.
  intros Hm Hh w Hw. specialize (Hm w Hw). unfold try_catch.
  destruct (m w) as [[a|t] w']; simpl in *; [done | by apply Hh].
Qed.

Lemma preserves_rendered I tool args data : preserves I (rendered tool args data).
Proof. intros w Hw. unfold rendered. by destruct (present w tool args data). Qed.

Lemma preserves_toStr I v : preserves I (toStr v).
Proof.
  unfold toStr. destruct (ToString v); [apply preserves_ret | apply preserves_throw].
Qed.

Lemma preserves_toString I what v : preserves I (toString what v).
Proof.
  destruct v; simpl; try apply preserves_toStr; try apply preserves_throw.
  case_bool_decide; [apply preserves_throw | apply preserves_ret].
Qed.

Lemma preserves_appendIf I cond params name value :
  preserves I (appendIf cond params name value).
Proof.
  unfold appendIf. destruct cond; [|apply preserves_ret].
  apply preserves_bind; [apply preserves_toStr | intros; apply preserves_ret].
Qed.

Ltac preserve_step :=
  lazymatch goal with
  | |- preserves _ (bind _ _) => apply preserves_bind; [|intros ?]
  | |- preserves _ (try_catch _ _) => apply preserves_try_catch; [|intros ?]
  | |- preserves _ (ret _) => apply preserves_ret
  | |- preserves _ (throw _) => apply preserves_throw
  | |- preserves _ (gets _) => apply preserves_gets
  | |- preserves _ (rendered _ _ _) => apply preserves_rendered
  | |- preserves _ (toString _ _) => apply preserves_toString
  | |- preserves _ (toStr _) => apply preserves_toStr
  | |- preserves _ (appendIf _ _ _ _) => apply preserves_appendIf
  | |- preserves _ (if ?b then _ else _) => destruct b
  | |- preserves _ (match ?x with _ => _ end) => destruct x
  | |- _ => fail
  end.

Section Preservation.
Variable I : World → Prop.
Hypothesis I_ticks : ∀ n w, I w → I (set_ticks n w).
Hypothesis I_console : ∀ l w, I w → I (set_console l w).
Hypothesis I_sent : ∀ l w, I w → I (set_sent l w).
Hypothesis I_faults : ∀ r w,
  redis w = Some r → I w →
  I (set_redis (Some (mkRedis (store r) (tail (faults r)))) w).
Hypothesis I_setEx : ∀ r t w,
  redis w = Some r → I w →
  I (set_redis (Some (mkRedis
       (<[redisKey (sellerId t) := ((3600 * 24 * 7)%Z, JSON_stringify t)]> (store r))
       (tail (faults r)))) w).
Hypothesis I_del : ∀ r key w,
  redis w = Some r → I w →
  I (set_redis (Some (mkRedis (delete key (store r)) (tail (faults r)))) w).
Hypothesis I_Map_set : ∀ t w,
  I w → I (set_sellerTokens (<[sellerId t := t]> (sellerTokens w)) w).
Hypothesis I_Map_delete : ∀ k w,
  I w → I (set_sellerTokens (delete k (sellerTokens w)) w).

Lemma preserves_Date_now : preserves I Date_now.
Proof. intros w Hw. by apply I_ticks. Qed.

Lemma preserves_console_error label error : preserves I (console_error label error).
Proof. intros w Hw. by apply I_console. Qed.

Lemma preserves_axios_post u body : preserves I (axios_post u body).
Proof.
  intros w Hw. unfold axios_post.
  destruct (authRemote w _ _); by apply I_sent.
Qed.

Lemma preserves_axios req : preserves I (axios req).
Proof.
  intros w Hw. unfold axios.
  destruct (apiRemote w _ _); by apply I_sent.
Qed.

Lemma preserves_redis_get key : preserves I (redis_get key).
Proof.
  intros w Hw. unfold redis_get, redis_command.
  destruct (redis w) as [r|] eqn:Er; [|done].
  pose proof (I_faults r w Er Hw) as H.
  destruct (faults r) as [|[e|] rest]; exact H.
Qed.

Lemma preserves_redis_setEx t :
  preserves I (redis_setEx (redisKey (sellerId t)) (3600 * 24 * 7) (JSON_stringify t)).
Proof.
  intros w Hw. unfold redis_setEx, redis_command.
  destruct (redis w) as [r|] eqn:Er; [|done].
  pose proof (I_faults r w Er Hw) as H.
  pose proof (I_setEx r t w Er Hw) as H'.
  destruct (faults r) as [|[e|] rest]; [exact H' | exact H | exact H'].
Qed.

Lemma preserves_redis_del key : preserves I (redis_del key).
Proof.
  intros w Hw. unfold redis_del, redis_command.
  destruct (redis w) as [r|] eqn:Er; [|done].
  pose proof (I_faults r w Er Hw) as H.
  pose proof (I_del r key w Er Hw) as H'.
  destruct (faults r) as [|[e|] rest]; [exact H' | exact H | exact H'].
Qed.

Lemma preserves_Map_set t : preserves I (Map_set (sellerId t) t).
Proof. intros w Hw. by apply I_Map_set. Qed.

Lemma preserves_Map_get k : preserves I (Map_get k).
Proof. by intros w Hw. Qed.

Lemma preserves_Map_delete k : preserves I (Map_delete k).
Proof. intros w Hw. by apply I_Map_delete. Qed.

(** A write is safe when the record names the key it is written under. *)
Lemma preserves_storeTokens t : preserves I (storeTokens (sellerId t) t).
Proof.
  unfold storeTokens. repeat preserve_step;
    auto using preserves_redis_setEx, preserves_console_error, preserves_Map_set.
Qed.

Lemma preserves_getTokens k : preserves I (getTokens k).
Proof.
  unfold getTokens. repeat preserve_step;
    auto using preserves_redis_get, preserves_console_error, preserves_Map_get.
Qed.

Lemma preserves_revokeTokens k : preserves I (revokeTokens k).
Proof.
  unfold revokeTokens. repeat preserve_step;
    auto using preserves_redis_del, preserves_console_error, preserves_Map_delete.
Qed.

Lemma preserves_checkAuthentication k : preserves I (checkAuthentication k).
Proof.
  unfold checkAuthentication. repeat preserve_step;
    auto using preserves_getTokens, preserves_Date_now, preserves_axios_post,
      preserves_console_error, preserves_revokeTokens.
  all: match goal with
       | |- preserves _ (storeTokens ?k ?t) => apply (preserves_storeTokens t)
       end.
Qed.

Lemma preserves_makeApiRequest k method endpoint data :
  preserves I (makeApiRequest k method endpoint data).
Proof.
  unfold makeApiRequest. repeat preserve_step;
    auto using preserves_getTokens, preserves_axios.
Qed.

Lemma preserves_handleMyntraOperation operation args :
  preserves I (handleMyntraOperation operation args).
Proof.
  unfold handleMyntraOperation, listProducts, getProduct, createProduct,
    updateProduct, updateInventory, listOrders, getOrder, updateOrderStatus,
    getReturns, processReturn, getAnalytics.
  repeat preserve_step; auto using preserves_makeApiRequest.
Qed.

Lemma preserves_handleAuthenticate args : preserves I (handleAuthenticate args).
Proof.
  unfold handleAuthenticate. repeat preserve_step;
    auto using preserves_checkAuthentication, preserves_Date_now, preserves_axios_post.
  all: match goal with
       | |- preserves _ (storeTokens ?k ?t) => apply (preserves_storeTokens t)
       end.
Qed.

Lemma preserves_handleStatus k : preserves I (handleStatus k).
Proof.
  unfold handleStatus. repeat preserve_step;
    auto using preserves_checkAuthentication, preserves_makeApiRequest.
Qed.

Lemma preserves_dispatch name args : preserves I (dispatch name args).
Proof.
  unfold dispatch. repeat preserve_step;
    auto using preserves_handleAuthenticate, preserves_handleStatus,
      preserves_checkAuthentication, preserves_handleMyntraOperation,
      preserves_console_error.
Qed.

Lemma preserves_auth_login body : preserves I (auth_login body).
Proof.
  unfold auth_login. repeat preserve_step;
    auto using preserves_Date_now, preserves_axios_post, preserves_console_error.
  all: match goal with
       | |- preserves _ (storeTokens ?k ?t) => apply (preserves_storeTokens t)
       end.
Qed.

Lemma preserves_auth_status s : preserves I (auth_status s).
Proof.
  unfold auth_status. repeat preserve_step;
    auto using preserves_checkAuthentication, preserves_getTokens, preserves_Date_now.
Qed.

Lemma preserves_auth_logout s : preserves I (auth_logout s).
Proof.
  unfold auth_logout. repeat preserve_step; auto using preserves_revokeTokens.
Qed.
End Preservation.

(** ** The stored records name their key *)

Lemma keyed_frame w w' :
  sellerTokens w' = sellerTokens w → durable w' = durable w → keyed w → keyed w'.
Proof. unfold keyed. by intros -> ->. Qed.

Lemma keyed_redis r s fl w :
  redis w = Some r → keyed w →
  map_Forall (fun key v => key = redisKey (sellerId (JSON_parse v.2))) s →
  keyed (set_redis (Some (mkRedis s fl)) w).
Proof. unfold keyed, durable. intros -> [Hm Hd] Hs. by split. Qed.

Lemma keyed_store r w :
  redis w = Some r → keyed w →
  map_Forall (fun key v => key = redisKey (sellerId (JSON_parse v.2))) (store r).
Proof. unfold keyed, durable. by intros -> [_ Hd]. Qed.

Lemma preserves_keyed_dispatch_and_routes :
  (∀ name args, preserves keyed (dispatch name args))
  ∧ (∀ args, preserves keyed (handleAuthenticate args))
  ∧ (∀ k, preserves keyed (checkAuthentication k))
  ∧ (∀ body, preserves keyed (auth_login body))
  ∧ (∀ s, preserves keyed (auth_status s))
  ∧ (∀ s, preserves keyed (auth_logout s)).
Proof.
  assert (H1 : ∀ n w, keyed w → keyed (set_ticks n w)) by (intros; by eapply keyed_frame).
  assert (H2 : ∀ l w, keyed w → keyed (set_console l w)) by (intros; by eapply keyed_frame).
  assert (H3 : ∀ l w, keyed w → keyed (set_sent l w)) by (intros; by eapply keyed_frame).
  assert (H4 : ∀ r w, redis w = Some r → keyed w →
                keyed (set_redis (Some (mkRedis (store r) (tail (faults r)))) w)).
  { intros r w Er Hw. eapply keyed_redis; eauto using keyed_store. }
  assert (H5 : ∀ r t w, redis w = Some r → keyed w →
                keyed (set_redis (Some (mkRedis
                  (<[redisKey (sellerId t) := ((3600 * 24 * 7)%Z, JSON_stringify t)]> (store r))
                  (tail (faults r)))) w)).
  { intros r t w Er Hw. eapply keyed_redis; eauto.
    apply map_Forall_insert_2; [done | eauto using keyed_store]. }
  assert (H6 : ∀ r key w, redis w = Some r → keyed w →
                keyed (set_redis (Some (mkRedis (delete key (store r)) (tail (faults r)))) w)).
  { intros r key w Er Hw. eapply keyed_redis; eauto.
    apply map_Forall_delete. eauto using keyed_store. }
  assert (H7 : ∀ t w, keyed w →
                keyed (set_sellerTokens (<[sellerId t := t]> (sellerTokens w)) w)).
  { intros t w [Hm Hd]. split; [|done]. by apply map_Forall_insert_2. }
  assert (H8 : ∀ k w, keyed w →
                keyed (set_sellerTokens (delete k (sellerTokens w)) w)).
  { intros k w [Hm Hd]. split; [|done]. by apply map_Forall_delete. }
  split_and!; intros.
  - by apply preserves_dispatch.
  - by apply preserves_handleAuthenticate.
  - by apply preserves_checkAuthentication.
  - by apply preserves_auth_login.
  - by apply preserves_auth_status.
  - by apply preserves_auth_logout.
Qed.

(** C7. Every Session in the token store carries, as its [sellerId], the
    key it is stored under: this holds of the empty store the server starts
    with, and every entry point keeps it; in particular the three places
    that write a Session (the [myntra_authenticate] tool, [POST /auth/login]
    and the refresh inside [checkAuthentication]). *)
Theorem stored_session_names_its_key :
  (∀ w, sellerTokens w = ∅ → (durable w = None ∨ durable w = Some ∅) → keyed w)
  ∧ ∀ w, keyed w →
      (∀ name args, keyed (dispatch name args w).2)
      ∧ (∀ args, keyed (handleAuthenticate args w).2)
      ∧ (∀ body, keyed (auth_login body w).2)
      ∧ (∀ k, keyed (checkAuthentication k w).2)
      ∧ (∀ s, keyed (auth_status s w).2)
      ∧ (∀ s, keyed (auth_logout s w).2).
Proof.
  split.
  - intros w Hm Hd. unfold keyed. rewrite Hm. split; [apply map_Forall_empty|].
    destruct Hd as [-> | ->]; simpl; [done | apply map_Forall_empty].
  - intros w Hw.
    destruct preserves_keyed_dispatch_and_routes as (Hd & Ha & Hc & Hl & Hs & Ho).
    split_and!; intros; [apply Hd | apply Ha | apply Hl | apply Hc | apply Hs | apply Ho];
      done.
Qed.

Lemma stored_session_names_its_key_witness :
  keyed (withSession (sessionS1 500) stubWorld)
  ∧ keyed (dispatch "myntra_authenticate" (Some credentialsS1)
             (withSession (sessionS1 500) stubWorld)).2
  ∧ keyed (auth_login (mkLogin (Some "S2") (Some "k") (Some "s"))
             (withSession (sessionS1 500) stubWorld)).2.
Proof.
  assert (H : keyed (withSession (sessionS1 500) stubWorld)).
  { split; [|done]. apply map_Forall_insert_2; [done | apply map_Forall_empty]. }
  split; [exact H|].
  destruct stored_session_names_its_key as [_ K].
  destruct (K _ H) as (Hd & _ & Hl & _).
  split; [apply Hd | apply Hl].
Defined.

(** ** The dispatcher's gates *)

Lemma eqb_false (a b : string) : a ≠ b → (a =? b) = false.
Proof. apply String.eqb_neq. Qed.

Lemma truthy_Some (s : string) : s ≠ "" → truthy (Some s) = true.
Proof. intros H. simpl. by rewrite eqb_false. Qed.

(** C9. A tool other than [myntra_authenticate] and [myntra_status] called
    with no [seller_id] (an argument object without it, or no argument
    object at all) gets the validation error as its result, and the world is
    left exactly as it was: nothing is sent, no Redis command is issued, the
    token store is neither read nor changed. *)
Theorem missing_seller_id_is_rejected name args w :
  name ≠ "myntra_authenticate" → name ≠ "myntra_status" →
  args ≫= seller_id = None →
  dispatch name args w
  = (Returns (errorResult "Error: seller_id is required for all Myntra operations."), w).
Proof.
  intros Ha Hs Hid. unfold dispatch, try_catch.
  rewrite (eqb_false _ _ Ha), (eqb_false _ _ Hs), Hid. reflexivity.
Qed.

Lemma missing_seller_id_is_rejected_witness :
  dispatch "myntra_get_order" (Some noArgs) stubWorld
  = (Returns (errorResult "Error: seller_id is required for all Myntra operations."),
     stubWorld).
Proof. apply missing_seller_id_is_rejected; [done | done | reflexivity]. Defined.

(** C10. For every tool name, a [seller_id] equal to the empty string is
    treated exactly as a missing one: both calls give the same outcome,
    which is the tool's validation error, and leave the world exactly as it
    was (nothing sent, no authentication check, no access to the token
    store). *)
Theorem empty_seller_id_is_missing name key secret rest w :
  dispatch name (Some (mkArgs (Some "") key secret rest)) w
  = dispatch name (Some (mkArgs None key secret rest)) w
  ∧ dispatch name (Some (mkArgs (Some "") key secret rest)) w
    = (Returns (errorResult (validationMessage name)), w).
Proof.
  unfold dispatch, try_catch, validationMessage, handleAuthenticate, handleStatus.
  destruct (name =? "myntra_authenticate"); [done|].
  destruct (name =? "myntra_status"); done.
Qed.

(** ** What leaves the dispatcher *)

Lemma dispatch_operation name args w :
  name ≠ "myntra_authenticate" → name ≠ "myntra_status" →
  truthy (args ≫= seller_id) = true →
  dispatch name args w
  = try_catch
      (authenticated <- checkAuthentication (args ≫= seller_id) ;;
       if negb authenticated then ret (errorResult notAuthenticatedMessage)
       else handleMyntraOperation name (default noArgs args))
      (fun error => console_error ("Error in " +:+ name +:+ ":") error ;;
                    throw (raised name error)) w.
Proof.
  intros Ha Hs Hid. unfold dispatch.
  by rewrite (eqb_false _ _ Ha), (eqb_false _ _ Hs), Hid.
Qed.

(** C1, as the code has it. Every call of the dispatcher ends in one of two
    ways: it returns a structured result, or it raises an [McpError] with
    code [InternalError] and message [Error executing <name>: <message>].
    The second happens exactly when the call passed both gates and the tool
    handler threw: the exception is caught, logged and raised again as that
    [McpError], not turned into an error result.  [myntra_authenticate],
    [myntra_status] and the two gates always return a result. *)
Theorem dispatch_returns_or_raises_McpError name args w :
  ((∃ r w', dispatch name args w = (Returns r, w'))
   ∨ (∃ error w1 w2,
        name ≠ "myntra_authenticate" ∧ name ≠ "myntra_status"
        ∧ checkAuthentication (args ≫= seller_id) w = (Returns true, w1)
        ∧ handleMyntraOperation name (default noArgs args) w1 = (Throws error, w2)
        ∧ dispatch name args w = (Throws (raised name error), logged name error w2)))
  ∧ (∀ error w1 w2,
        name ≠ "myntra_authenticate" → name ≠ "myntra_status" →
        truthy (args ≫= seller_id) = true →
        checkAuthentication (args ≫= seller_id) w = (Returns true, w1) →
        handleMyntraOperation name (default noArgs args) w1 = (Throws error, w2) →
        dispatch name args w = (Throws (raised name error), logged name error w2)).
Proof.
  split.
  - destruct (decide (name = "myntra_authenticate")) as [->|Ha].
    { left. unfold dispatch. simpl.
      destruct (total_handleAuthenticate (default noArgs args) w) as (r & w' & E).
      exists r, w'. by rewrite (try_catch_Returns _ _ _ _ _ E). }
    destruct (decide (name = "myntra_status")) as [->|Hs].
    { left. unfold dispatch. simpl.
      destruct (total_handleStatus (args ≫= seller_id) w) as (r & w' & E).
      exists r, w'. by rewrite (try_catch_Returns _ _ _ _ _ E). }
    destruct (truthy (args ≫= seller_id)) eqn:Hid.
    + rewrite dispatch_operation by done.
      destruct (total_checkAuthentication (args ≫= seller_id) w) as (b & w1 & Ec).
      unfold try_catch. rewrite (bind_Returns _ _ _ _ _ Ec).
      destruct b; simpl.
      * destruct (handleMyntraOperation name (default noArgs args) w1)
          as [[r|error] w2] eqn:Eh.
        -- left. by exists r, w2.
        -- right. by exists error, w1, w2.
      * left. by eexists _, _.
    + left. unfold dispatch, try_catch.
      rewrite (eqb_false _ _ Ha), (eqb_false _ _ Hs), Hid. by eexists _, _.
  - intros error w1 w2 Ha Hs Hid Ec Eh.
    rewrite dispatch_operation by done.
    unfold try_catch. rewrite (bind_Returns _ _ _ _ _ Ec). simpl. by rewrite Eh.
Qed.

Lemma dispatch_returns_or_raises_McpError_witness :
  dispatch "myntra_get_order" (Some orderO1) outageWorld
  = (Throws (raised "myntra_get_order" (ErrorObj (Error "Internal failure"))),
     logged "myntra_get_order" (ErrorObj (Error "Internal failure"))
       (set_sent [bearerRequest outageWorld "T0" "GET" "/orders/O1" JUndefined]
          (set_ticks 1 outageWorld))).
Proof.
  apply (proj2 (dispatch_returns_or_raises_McpError
                  "myntra_get_order" (Some orderO1) outageWorld)
           _ (set_ticks 1 outageWorld)); [done | done | reflexivity | reflexivity |].
  reflexivity.
Defined.

(** C1 as stated fails: with a valid Session and a remote that answers 500,
    [myntra_get_order] does not end in an error result; the dispatcher
    raises. *)
Lemma handler_exception_escapes_dispatch :
  (dispatch "myntra_get_order" (Some orderO1) outageWorld).1
  = Throws (McpError InternalError
              "Error executing myntra_get_order: Internal failure")
  ∧ ¬ ∃ (r : ToolResult) w', dispatch "myntra_get_order" (Some orderO1) outageWorld
                            = (Returns r, w').
Proof.
  assert (E : (dispatch "myntra_get_order" (Some orderO1) outageWorld).1
              = Throws (McpError InternalError
                          "Error executing myntra_get_order: Internal failure"))
    by reflexivity.
  split; [exact E|]. intros (r & w' & H). rewrite H in E. discriminate.
Qed.

(** ** Running the token store *)

Ltac unfold_store :=
  unfold getTokens, storeTokens, revokeTokens, redis_get, redis_setEx, redis_del,
    redis_command, Map_get, Map_set, Map_delete, console_error, Date_now,
    bind, try_catch, gets, ret, throw in *.

(** The three ways a command on the durable cache can go. *)
Ltac case_redis w :=
  let r := fresh "r" in
  let st := fresh "st" in
  let fl := fresh "fl" in
  let e := fresh "e" in
  let Er := fresh "Er" in
  destruct (redis w) as [[st [|[e|] fl]]|] eqn:Er.

(** [getTokens] only reads: it never throws, and leaves everything but the
    log and the pending faults as it was. *)
Lemma getTokens_reads sellerId w :
  ∃ found w', getTokens sellerId w = (Returns found, w')
    ∧ sent w' = sent w ∧ sellerTokens w' = sellerTokens w ∧ durable w' = durable w
    ∧ ticks w' = ticks w ∧ clock w' = clock w ∧ myntraApiBase w' = myntraApiBase w
    ∧ authRemote w' = authRemote w ∧ apiRemote w' = apiRemote w
    ∧ present w' = present w
    ∧ (found = sellerTokens w !! sellerId ∨ found = durableTokens sellerId w)
    ∧ (reliable w → reliable w').
Proof.
  unfold durableTokens, durable, reliable. unfold_store.
  case_redis w; simpl; rewrite ?Er; simpl;
    (eexists _, _; split; [reflexivity|]); simpl;
    rewrite ?Er; simpl; split_and!; try done; auto;
    try (right; by rewrite option_fmap_compose);
    try (intros [?|?]; simplify_eq; auto).
Qed.

Lemma getTokens_never sellerId w :
  neverAuthenticated sellerId w →
  ∃ w', getTokens sellerId w = (Returns None, w')
    ∧ sent w' = sent w ∧ sellerTokens w' = sellerTokens w ∧ durable w' = durable w.
Proof.
  intros [Hm Hd].
  destruct (getTokens_reads sellerId w) as (found & w' & E & Hs & Hm' & Hd' & _ & _ & _ & _ & _ & _ & Hf & _).
  exists w'. split_and!; try done.
  destruct Hf as [-> | ->]; by rewrite E, ?Hm, ?Hd.
Qed.

(** C4, as the code has it. An account with no Session in the token store
    is not authenticated: [checkAuthentication] returns false without
    sending anything.  When its identifier is not the empty string, every
    tool other than [myntra_authenticate] and [myntra_status] called for it
    returns the error result that tells the caller to authenticate first;
    the world after the call is the world after the authentication check,
    so the tool handler has not run. *)
Theorem unknown_account_is_turned_away sid w :
  neverAuthenticated (Some sid) w →
  ∃ w', checkAuthentication (Some sid) w = (Returns false, w')
    ∧ sent w' = sent w ∧ sellerTokens w' = sellerTokens w ∧ durable w' = durable w
    ∧ ∀ name args,
        sid ≠ "" → name ≠ "myntra_authenticate" → name ≠ "myntra_status" →
        seller_id args = Some sid →
        dispatch name (Some args) w
        = (Returns (errorResult notAuthenticatedMessage), w').
Proof.
  intros Hn. destruct (getTokens_never _ _ Hn) as (w' & E & Hs & Hm & Hd).
  assert (Ec : checkAuthentication (Some sid) w = (Returns false, w')).
  { unfold checkAuthentication. by rewrite (bind_Returns _ _ _ _ _ E). }
  exists w'. split_and!; try done.
  intros name args Hsid Ha Hst Hid.
  rewrite dispatch_operation by (simpl; rewrite ?Hid; auto using truthy_Some).
  simpl. rewrite Hid. unfold try_catch. by rewrite (bind_Returns _ _ _ _ _ Ec).
Qed.

Lemma unknown_account_is_turned_away_witness :
  ∃ w', checkAuthentication (Some "S9") outageWorld = (Returns false, w')
    ∧ sent w' = sent outageWorld
    ∧ dispatch "myntra_get_order" (Some (mkArgs (Some "S9") None None ∅)) outageWorld
      = (Returns (errorResult notAuthenticatedMessage), w').
Proof.
  destruct (unknown_account_is_turned_away "S9" outageWorld) as (w' & Ec & Hs & _ & _ & Hd).
  { split; reflexivity. }
  exists w'. split_and!; [exact Ec | exact Hs |].
  apply Hd; [done | done | done | reflexivity].
Defined.

(** C4 as stated fails for the account whose identifier is the empty
    string: it has never been authenticated, yet a tool called for it is
    answered with the validation error, not with the direction to
    authenticate. *)
Lemma empty_account_gets_validation_error :
  neverAuthenticated (Some "") stubWorld
  ∧ dispatch "myntra_get_order" (Some (mkArgs (Some "") None None ∅)) stubWorld
    = (Returns (errorResult "Error: seller_id is required for all Myntra operations."),
       stubWorld)
  ∧ (dispatch "myntra_get_order" (Some (mkArgs (Some "") None None ∅)) stubWorld).1
    ≠ Returns (errorResult notAuthenticatedMessage).
Proof. split_and!; [by split | reflexivity | discriminate]. Qed.

(** ** Revocation *)

Lemma reliable_nextCommandServed w : reliable w → nextCommandServed w.
Proof.
  unfold reliable, nextCommandServed. intros H r e rest Er Hf.
  rewrite Er in H. simpl in H. rewrite Hf in H. by destruct H.
Qed.

(** C8, as the code has it. [revokeTokens] never throws, whatever the token
    store holds and whether or not the durable cache fails; it sends
    nothing and removes the account's Session from the in-process map.
    When there is no durable cache, or the delete command on it is served,
    the record is removed there too and the account holds no Session in
    either backend.  Revoking again completes as well and leaves the
    in-process map as it is. *)
Theorem revoke_always_completes sid w :
  ∃ w', revokeTokens sid w = (Returns tt, w')
    ∧ sent w' = sent w
    ∧ sellerTokens w' = delete sid (sellerTokens w)
    ∧ (nextCommandServed w → durable w' = delete (redisKey sid) <$> durable w)
    ∧ (nextCommandServed w → neverAuthenticated sid w')
    ∧ ∃ w'', revokeTokens sid w' = (Returns tt, w'')
        ∧ sellerTokens w'' = sellerTokens w'.
Proof.
  destruct (total_revokeTokens sid w) as ([] & w' & E).
  destruct (total_revokeTokens sid w') as ([] & w'' & E').
  exists w'. split; [done|].
  assert (Hm : ∀ v v', revokeTokens sid v = (Returns tt, v') →
                 sellerTokens v' = delete sid (sellerTokens v) ∧ sent v' = sent v).
  { clear. intros v v'. unfold_store.
    case_redis v; simpl; rewrite ?Er; simpl; by intros [= <-]. }
  destruct (Hm _ _ E) as [Hw' Hs]. destruct (Hm _ _ E') as [Hw'' _].
  assert (Hserved : nextCommandServed w →
            durable w' = delete (redisKey sid) <$> durable w).
  { clear -E. intros Hn. revert E. unfold durable. unfold_store.
    case_redis w; simpl; rewrite ?Er; simpl; intros [= <-]; simpl;
      rewrite ?Er; try done.
    by destruct (Hn _ e fl Er). }
  split_and!; try done.
  - intros Hn. split.
    + rewrite Hw'. apply lookup_delete_eq.
    + unfold durableTokens. rewrite (Hserved Hn).
      destruct (durable w) as [s|]; simpl; [|done].
      by rewrite lookup_delete_eq.
  - exists w''. split; [done|]. rewrite Hw'', Hw'. apply delete_delete_eq.
Qed.

Lemma revoke_always_completes_witness :
  ∃ w', revokeTokens (Some "S1") outageWorld = (Returns tt, w')
    ∧ sellerTokens w' = delete (Some "S1") (sellerTokens outageWorld)
    ∧ neverAuthenticated (Some "S1") w'.
Proof.
  destruct (revoke_always_completes (Some "S1") outageWorld)
    as (w' & E & _ & Hm & _ & Hn & _).
  exists w'. split_and!; [exact E | exact Hm |].
  apply Hn. intros r e rest Hr. discriminate Hr.
Defined.

(** C8 as stated fails when the durable cache is configured and its delete
    command fails: the revoke completes, but the cache still holds the
    Session, the next read finds it, and the account is authenticated. *)
Lemma revoked_session_survives_failed_delete :
  (revokeTokens (Some "S1") flakyWorld).1 = Returns tt
  ∧ (getTokens (Some "S1") (revokeTokens (Some "S1") flakyWorld).2).1
    = Returns (Some (sessionS1 5000))
  ∧ (checkAuthentication (Some "S1") (revokeTokens (Some "S1") flakyWorld).2).1
    = Returns true
  ∧ ¬ neverAuthenticated (Some "S1") (revokeTokens (Some "S1") flakyWorld).2.
Proof.
  split_and!; [reflexivity | reflexivity | reflexivity |].
  intros [_ H]. discriminate H.
Qed.

(** ** The authentication check, case by case *)

(** [checkAuthentication] never throws and ends in one of three ways: it
    sent nothing and left the token store alone; it sent one refresh request
    and answered true; or it sent one refresh request, answered false and
    removed the Session. *)
Lemma checkAuthentication_cases sid w :
  ∃ b w1, checkAuthentication sid w = (Returns b, w1) ∧ sameEnv w w1 ∧
   ( (sent w1 = sent w ∧ sameSessions w w1)
   ∨ (∃ rt, b = true ∧ sent w1 = sent w ++ [refreshRequest w rt])
   ∨ (∃ rt, b = false ∧ sent w1 = sent w ++ [refreshRequest w rt]
        ∧ sellerTokens w1 = delete sid (sellerTokens w)
        ∧ (durable w1 = durable w
           ∨ durable w1 = delete (redisKey sid) <$> durable w))).
Proof.
  unfold checkAuthentication, axios_post, sameEnv, sameSessions, durable,
    refreshRequest.
  unfold_store.
  case_redis w; simpl; rewrite ?Er; simpl.
  all: repeat (case_match; simpl in *; simplify_eq; rewrite ?Er; simpl).
  all: eexists _, _; split; [reflexivity|]; simpl; rewrite ?Er; simpl; split; [done|].
  all: try (left; done).
  all: try (right; left; eexists; done).
  all: right; right; eexists; split_and!; try done; auto.
Qed.

Lemma storeTokens_frame sid t w :
  ∃ w', storeTokens sid t w = (Returns tt, w')
    ∧ sameEnv w w' ∧ sent w' = sent w ∧ ticks w' = ticks w.
Proof.
  unfold sameEnv. unfold_store.
  case_redis w; simpl; rewrite ?Er; simpl; by eexists.
Qed.

Lemma tokenCalls_snoc base l r :
  tokenCalls base (l ++ [r])
  = (tokenCalls base l + if decide (url r = base +:+ "/auth/token") then 1 else 0)%nat.
Proof.
  unfold tokenCalls. rewrite filter_app, length_app. f_equal.
  rewrite filter_cons, filter_nil. by case_decide.
Qed.

Lemma tokenCalls_refresh base l rt w :
  myntraApiBase w = base →
  tokenCalls base (l ++ [refreshRequest w rt]) = tokenCalls base l.
Proof.
  intros <-. rewrite tokenCalls_snoc. case_decide as H; [|lia].
  simpl in H. apply (inj (String.app _)) in H. discriminate.
Qed.

Lemma tokenCalls_token l args w :
  tokenCalls (myntraApiBase w) (l ++ [tokenRequest w args])
  = S (tokenCalls (myntraApiBase w) l).
Proof. rewrite tokenCalls_snoc. case_decide as H; [lia | done]. Qed.

(** A Session that can be used as it is lets the check answer true at once. *)
Lemma checkAuthentication_valid sid w :
  currentlyValid sid w = true →
  ∃ w', checkAuthentication sid w = (Returns true, w')
    ∧ sameEnv w w' ∧ sent w' = sent w ∧ sameSessions w w'.
Proof.
  unfold currentlyValid. intros H.
  destruct (getTokens_reads sid w)
    as (found & w0 & E & Hs & Hm & Hd & Ht & Hc & Hb & Ha & Hp & Hr & _).
  rewrite E in H. destruct found as [t|]; [|done].
  apply andb_prop in H as [Htok Hexp].
  destruct (expiresOn t) as [e|] eqn:Ee; [|done].
  apply andb_prop in Hexp as [Hz Hlt].
  unfold checkAuthentication. rewrite (bind_Returns _ _ _ _ _ E). simpl.
  rewrite Htok, Ee, Hz. simpl. unfold bind, Date_now, ret. simpl.
  rewrite Hc, Ht, Hlt. eexists. split; [reflexivity|].
  unfold sameEnv, sameSessions, durable in *. simpl.
  by rewrite Hs, Hm, Hd, Hc, Hb, Ha, Hp, Hr.
Qed.

(** ** Authenticating twice *)

Lemma append_empty_r (s : string) : s +:+ "" = s.
Proof.
  induction s as [|a s IH]; [reflexivity|].
  change (String a (s +:+ "") = String a s). by rewrite IH.
Qed.

Lemma dispatch_authenticate args w :
  dispatch "myntra_authenticate" args w = handleAuthenticate (default noArgs args) w.
Proof.
  unfold dispatch. simpl.
  destruct (total_handleAuthenticate (default noArgs args) w) as (r & w' & E).
  by rewrite (try_catch_Returns _ _ _ _ _ E).
Qed.

Lemma validated args :
  negb (truthy (seller_id args)) || negb (truthy (api_key args))
    || negb (truthy (api_secret args)) = false →
  truthy (seller_id args) = true ∧ truthy (api_key args) = true
  ∧ truthy (api_secret args) = true.
Proof.
  destruct (truthy (seller_id args)), (truthy (api_key args)),
    (truthy (api_secret args)); simpl; done.
Qed.

(** A successful [myntra_authenticate] had all three credentials, names the
    account in its text, and sent at most a refresh request followed by at
    most one token-issuance request. *)
Lemma handleAuthenticate_success args w r1 w1 :
  handleAuthenticate args w = (Returns r1, w1) → isError r1 = None →
  truthy (seller_id args) = true ∧ truthy (api_key args) = true
  ∧ truthy (api_secret args) = true
  ∧ reportsSeller (seller_id args) r1
  ∧ sameEnv w w1
  ∧ ∃ refresh issue,
      sent w1 = sent w ++ refresh ++ issue
      ∧ (refresh = [] ∨ ∃ rt, refresh = [refreshRequest w rt])
      ∧ (issue = [] ∨ issue = [tokenRequest w args]).
Proof.
  unfold handleAuthenticate, try_catch.
  destruct (negb (truthy (seller_id args)) || negb (truthy (api_key args))
            || negb (truthy (api_secret args))) eqn:Hv.
  { intros [= <- <-]. done. }
  destruct (validated _ Hv) as (H1 & H2 & H3).
  destruct (checkAuthentication_cases (seller_id args) w)
    as (b & w0 & Ec & Henv & Hcases).
  rewrite (bind_Returns _ _ _ _ _ Ec).
  assert (Hsent : ∃ refresh, sent w0 = sent w ++ refresh
                    ∧ (refresh = [] ∨ ∃ rt, refresh = [refreshRequest w rt])).
  { destruct Hcases as [[-> _] | [(rt & _ & ->) | (rt & _ & -> & _)]].
    - exists []. by rewrite app_nil_r; auto.
    - exists [refreshRequest w rt]. eauto.
    - exists [refreshRequest w rt]. eauto. }
  destruct Hsent as (refresh & Hs0 & Hrefresh).
  destruct Henv as (Hb & Hc & Ha & Hp & Hr).
  destruct b; simpl.
  - intros [= <- <-] _. split_and!; try done.
    + exists "Already authenticated with Myntra!", "". by rewrite append_empty_r.
    + exists refresh, []. rewrite app_nil_r. auto.
  - unfold bind at 1. unfold gets at 1. unfold bind at 1. unfold axios_post.
    destruct (authRemote w0 (sent w0) _) as [d|e]; simpl; [|by intros [= <- <-]].
    unfold bind, Date_now. simpl.
    match goal with
    | |- context [storeTokens ?a ?u ?v'] =>
        destruct (storeTokens_frame a u v') as (w' & Es & Henv' & Hs' & _)
    end.
    rewrite Es. simpl.
    intros [= <- <-] _. destruct Henv' as (Hb' & Hc' & Ha' & Hp' & Hr').
    simpl in *. split_and!; try done.
    + by exists "Successfully authenticated with Myntra!",
        (nl +:+ "Token expires in: " +:+ numOf (minutes (expires_in d)) +:+ " minutes").
    + unfold sameEnv. by rewrite Hb', Hc', Ha', Hp', Hr'.
    + exists refresh, [tokenRequest w args]. rewrite Hs', Hs0.
      unfold tokenRequest. rewrite Hb, app_assoc. auto.
Qed.

Lemma tokenCalls_shapes w args refresh issue :
  (refresh = [] ∨ ∃ rt, refresh = [refreshRequest w rt]) →
  (issue = [] ∨ issue = [tokenRequest w args]) →
  (tokenCalls (myntraApiBase w) (sent w ++ refresh ++ issue)
   ≤ S (tokenCalls (myntraApiBase w) (sent w)))%nat.
Proof.
  intros Hr Hi.
  assert (tokenCalls (myntraApiBase w) (sent w ++ refresh)
          = tokenCalls (myntraApiBase w) (sent w)) as Hcalls.
  { destruct Hr as [-> | [rt ->]]; [by rewrite app_nil_r|].
    by apply tokenCalls_refresh. }
  destruct Hi as [-> | ->].
  - rewrite app_nil_r, Hcalls. lia.
  - rewrite app_assoc, tokenCalls_token.
    unfold tokenCalls in *. rewrite Hcalls. lia.
Qed.

(** The text of a successful [myntra_authenticate] is one of its two
    fixed texts for the account. *)
Lemma handleAuthenticate_names args w r1 w1 :
  handleAuthenticate args w = (Returns r1, w1) → isError r1 = None →
  namesAccount (seller_id args) r1.
Proof.
  unfold handleAuthenticate, try_catch, namesAccount.
  destruct (negb (truthy (seller_id args)) || negb (truthy (api_key args))
            || negb (truthy (api_secret args))).
  { intros [= <- <-]. done. }
  destruct (total_checkAuthentication (seller_id args) w) as (b & w0 & Ec).
  rewrite (bind_Returns _ _ _ _ _ Ec).
  destruct b; simpl.
  - intros [= <- <-] _. by left.
  - unfold bind at 1. unfold gets at 1. unfold bind at 1. unfold axios_post.
    destruct (authRemote w0 (sent w0) _) as [d|e]; simpl; [|by intros [= <- <-]].
    unfold bind, Date_now. simpl.
    match goal with
    | |- context [storeTokens ?a ?u ?v'] =>
        destruct (storeTokens_frame a u v') as (w' & Es & _)
    end.
    rewrite Es. simpl. intros [= <- <-] _. right. by eexists.
Qed.

(** C3, as the code has it. When [myntra_authenticate] has succeeded for an
    account and the Session it left is still valid (its expiry being an
    integer a double holds exactly, so that the record is the one the code
    keeps), calling it again for that account succeeds at once, with the
    same arguments or with any other non-empty credentials: nothing is sent
    (so the token-issuance endpoint is not called), the token store is left
    as it was, and the result is the "Already authenticated" text for the
    account, which the first result, one of the two fixed texts, names as
    well.  Over the two calls the token-issuance endpoint is called at most
    once; the only other request there can be is one refresh request, sent
    by the first call before it when the account came with a stale
    Session. *)
Theorem second_authenticate_short_circuits args again w r1 w1 :
  dispatch "myntra_authenticate" (Some args) w = (Returns r1, w1) →
  isError r1 = None →
  currentlyValid (seller_id args) w1 = true →
  exactlyKept (seller_id args) w1 →
  seller_id again = seller_id args →
  truthy (api_key again) = true → truthy (api_secret again) = true →
  ∃ r2 w2,
    dispatch "myntra_authenticate" (Some again) w1 = (Returns r2, w2)
    ∧ r2 = textResult ("Already authenticated with Myntra!" +:+ nl +:+ nl
                       +:+ "Seller ID: " +:+ strOf (seller_id args))
    ∧ sent w2 = sent w1
    ∧ sameSessions w1 w2
    ∧ namesAccount (seller_id args) r1 ∧ namesAccount (seller_id args) r2
    ∧ (∃ refresh issue,
         sent w2 = sent w ++ refresh ++ issue
         ∧ (refresh = [] ∨ ∃ rt, refresh = [refreshRequest w rt])
         ∧ (issue = [] ∨ issue = [tokenRequest w args]))
    ∧ (tokenCalls (myntraApiBase w) (sent w2)
       ≤ S (tokenCalls (myntraApiBase w) (sent w)))%nat.
Proof.
  rewrite !dispatch_authenticate. simpl. intros E1 Hok Hvalid _ Hid Hkey Hsecret.
  destruct (handleAuthenticate_success _ _ _ _ E1 Hok)
    as (H1 & H2 & H3 & _ & Henv & refresh & issue & Hsent & Hr & Hi).
  pose proof (handleAuthenticate_names _ _ _ _ E1 Hok) as Hnames.
  destruct (checkAuthentication_valid _ _ Hvalid) as (w2 & Ec & Henv2 & Hs & Hsess).
  exists (textResult ("Already authenticated with Myntra!" +:+ nl +:+ nl
                      +:+ "Seller ID: " +:+ strOf (seller_id args))), w2.
  split_and!; try done.
  - unfold handleAuthenticate, try_catch. rewrite Hid, H1, Hkey, Hsecret. simpl.
    by rewrite (bind_Returns _ _ _ _ _ Ec).
  - by left.
  - exists refresh, issue. by rewrite Hs.
  - rewrite Hs, Hsent. by apply (tokenCalls_shapes w args).
Qed.

Lemma second_authenticate_short_circuits_witness :
  ∃ r1 w1 r2 w2,
    dispatch "myntra_authenticate" (Some credentialsS1) stubWorld = (Returns r1, w1)
    ∧ dispatch "myntra_authenticate"
        (Some (mkArgs (Some "S1") (Some "another key") (Some "another secret") ∅)) w1
      = (Returns r2, w2)
    ∧ r2 = textResult ("Already authenticated with Myntra!" +:+ nl +:+ nl
                       +:+ "Seller ID: S1")
    ∧ sent w2 = sent w1
    ∧ (tokenCalls (myntraApiBase stubWorld) (sent w2) ≤ 1)%nat.
Proof.
  eexists _, _.
  destruct (second_authenticate_short_circuits credentialsS1
              (mkArgs (Some "S1") (Some "another key") (Some "another secret") ∅)
              stubWorld _ _ eq_refl)
    as (r2 & w2 & E2 & Hr2 & Hs & _ & _ & _ & _ & Hcalls);
    [reflexivity | reflexivity | | reflexivity | reflexivity | reflexivity |].
  - intros t w' e Eg He. vm_compute in Eg. injection Eg as <- _.
    injection He as <-. unfold safeInteger. lia.
  - exists r2, w2. split_and!; [reflexivity | exact E2 | exact Hr2 | exact Hs | exact Hcalls].
Defined.

(** C3 as stated fails on its count of remote calls when the first call
    finds a stale Session whose refresh is rejected: it sends the refresh
    request, then the token-issuance request, and succeeds; the second call
    short-circuits.  Two remote calls were made over the two calls. *)
Lemma two_authenticates_can_make_two_remote_calls :
  (dispatch "myntra_authenticate" (Some credentialsS1)
     (recovering (withSession (sessionS1 500) stubWorld))).1
  = Returns (textResult ("Successfully authenticated with Myntra!" +:+ nl +:+ nl
                         +:+ "Seller ID: S1" +:+ nl
                         +:+ "Token expires in: 60 minutes"))
  ∧ currentlyValid (Some "S1")
      (dispatch "myntra_authenticate" (Some credentialsS1)
         (recovering (withSession (sessionS1 500) stubWorld))).2 = true
  ∧ (dispatch "myntra_authenticate" (Some credentialsS1)
       (dispatch "myntra_authenticate" (Some credentialsS1)
          (recovering (withSession (sessionS1 500) stubWorld))).2).1
    = Returns (textResult ("Already authenticated with Myntra!" +:+ nl +:+ nl
                           +:+ "Seller ID: S1"))
  ∧ sent (dispatch "myntra_authenticate" (Some credentialsS1)
            (dispatch "myntra_authenticate" (Some credentialsS1)
               (recovering (withSession (sessionS1 500) stubWorld))).2).2
    = [refreshRequest stubWorld (Some "R0"); tokenRequest stubWorld credentialsS1].
Proof. split_and!; reflexivity. Qed.

(** ** A failed token issuance *)

(** C5, as the code has it. When the account is not authenticated and the
    remote rejects the token-issuance call, [myntra_authenticate] returns an
    error result carrying the remote's detail (or, without one, the
    transport message), and the failed call itself leaves both backends of
    the token store as they were.  Nothing is created or replaced for any
    account; the only change the whole call can make is the one of the
    authentication check before it, which deletes the account's own Session
    when it was stale and its refresh failed. *)
Theorem failed_issuance_creates_no_session args w w0 e :
  truthy (seller_id args) = true → truthy (api_key args) = true →
  truthy (api_secret args) = true →
  checkAuthentication (seller_id args) w = (Returns false, w0) →
  authRemote w (sent w0) (tokenRequest w args) = Rejected e →
  ∃ w1,
    dispatch "myntra_authenticate" (Some args) w
    = (Returns (errorResult ("Authentication failed: " +:+ detailOf (ErrorObj e))), w1)
    ∧ sent w1 = sent w0 ++ [tokenRequest w args]
    ∧ sameSessions w0 w1
    ∧ (sameSessions w w1
       ∨ ∃ rt, sent w0 = sent w ++ [refreshRequest w rt]
           ∧ sellerTokens w1 = delete (seller_id args) (sellerTokens w)
           ∧ (durable w1 = durable w
              ∨ durable w1 = delete (redisKey (seller_id args)) <$> durable w)).
Proof.
  intros H1 H2 H3 Ec Hrej.
  destruct (checkAuthentication_cases (seller_id args) w)
    as (b & w0' & Ec' & Henv & Hcases).
  rewrite Ec in Ec'. injection Ec' as <- <-.
  destruct Henv as (Hb & Hc & Ha & Hp & Hr).
  exists (set_sent (sent w0 ++ [tokenRequest w args]) w0).
  split_and!.
  - rewrite dispatch_authenticate. simpl.
    unfold handleAuthenticate, try_catch. rewrite H1, H2, H3. simpl.
    rewrite (bind_Returns _ _ _ _ _ Ec). simpl.
    unfold bind, gets, axios_post. rewrite Ha, Hb.
    change (mkRequest "post" (myntraApiBase w +:+ "/auth/token") [] (tokenBody args))
      with (tokenRequest w args).
    by rewrite Hrej.
  - done.
  - done.
  - destruct Hcases as [[_ Hs] | [(rt & ? & _) | (rt & _ & Hs & Hm & Hd)]];
      [by left | done | right; by exists rt].
Qed.

Lemma failed_issuance_creates_no_session_witness :
  ∃ w1,
    dispatch "myntra_authenticate" (Some credentialsS1) (refusing outage stubWorld)
    = (Returns (errorResult "Authentication failed: Internal failure"), w1)
    ∧ sameSessions (refusing outage stubWorld) w1.
Proof.
  destruct (failed_issuance_creates_no_session credentialsS1
              (refusing outage stubWorld) (refusing outage stubWorld) outage)
    as (w1 & E & _ & Hs & _); [reflexivity .. |].
  exists w1. split; [exact E | exact Hs].
Defined.

(** C5 as stated fails when the account holds a stale Session with a
    refresh token: the check that precedes the token call tries to refresh,
    fails, and deletes the Session; the token call then fails too, and the
    token store is not as it was. *)
Lemma failed_authenticate_deletes_stale_session :
  (dispatch "myntra_authenticate" (Some credentialsS1) staleOutageWorld).1
  = Returns (errorResult "Authentication failed: Internal failure")
  ∧ sellerTokens staleOutageWorld !! Some "S1" = Some (sessionS1 500)
  ∧ sellerTokens (dispatch "myntra_authenticate" (Some credentialsS1) staleOutageWorld).2
      !! Some "S1" = None
  ∧ sent (dispatch "myntra_authenticate" (Some credentialsS1) staleOutageWorld).2
    = [refreshRequest staleOutageWorld (Some "R0");
       tokenRequest staleOutageWorld credentialsS1].
Proof. split_and!; reflexivity. Qed.

(** ** A token store that does not fall back *)

Lemma reliable_cases w :
  reliable w → redis w = None ∨ ∃ st, redis w = Some (mkRedis st []).
Proof.
  unfold reliable. destruct (redis w) as [[st fl]|]; simpl; [|by left].
  intros [?|?]; simplify_eq. right. by exists st.
Qed.

Lemma set_redis_same w : set_redis (redis w) w = w.
Proof. by destruct w. Qed.

(** Then [getTokens] answers with the record held and changes nothing. *)
Lemma getTokens_reliable sid w :
  reliable w → getTokens sid w = (Returns (held sid w), w).
Proof.
  intros [Er | (st & Er)]%reliable_cases;
    unfold held, durableTokens, durable; unfold_store; rewrite Er; simpl;
    rewrite ?Er; simpl; [done|].
  rewrite <- Er, set_redis_same. by rewrite option_fmap_compose.
Qed.

Lemma storeTokens_reliable sid t w :
  reliable w →
  ∃ w', storeTokens sid t w = (Returns tt, w')
    ∧ reliable w' ∧ held sid w' = Some t
    ∧ sameEnv w w' ∧ sent w' = sent w ∧ ticks w' = ticks w.
Proof.
  intros [Er | (st & Er)]%reliable_cases;
    unfold held, durableTokens, durable, reliable, sameEnv; unfold_store;
    rewrite Er; simpl; rewrite ?Er; simpl;
    (eexists; split; [reflexivity|]); simpl; rewrite ?Er; simpl;
    split_and!; auto; by rewrite lookup_insert_eq.
Qed.

Lemma revokeTokens_reliable sid w :
  reliable w →
  ∃ w', revokeTokens sid w = (Returns tt, w')
    ∧ reliable w' ∧ neverAuthenticated sid w'
    ∧ sameEnv w w' ∧ sent w' = sent w ∧ ticks w' = ticks w.
Proof.
  intros [Er | (st & Er)]%reliable_cases;
    unfold neverAuthenticated, durableTokens, durable, reliable, sameEnv;
    unfold_store; rewrite Er; simpl; rewrite ?Er; simpl;
    (eexists; split; [reflexivity|]); simpl; rewrite ?Er; simpl;
    split_and!; auto; by rewrite lookup_delete_eq.
Qed.

Lemma checkAuthentication_unfold sid :
  checkAuthentication sid
  = (tokens <- getTokens sid ;;
     if negb (truthy (tokens ≫= accessToken)) then ret false else
     fresh <- match tokens ≫= expiresOn with
              | Some e =>
                  if negb (e =? 0)%Z then now <- Date_now ;; ret (now <? e)%Z
                  else ret false
              | None => ret false
              end ;;
     if fresh : bool then ret true else
     if truthy (tokens ≫= refreshToken) then refreshAttempt sid tokens
     else ret false).
Proof. reflexivity. Qed.

(** The refresh attempt sends exactly one request; the reply decides the
    answer, and, when the token store does not fall back, what the store
    holds afterwards. *)
Lemma refreshAttempt_run sid t v :
  ∃ b v1, refreshAttempt sid (Some t) v = (Returns b, v1)
    ∧ sent v1 = sent v ++ [refreshRequest v (refreshToken t)]
    ∧ sameEnv v v1
    ∧ match authRemote v (sent v) (refreshRequest v (refreshToken t)) with
      | Resolved d =>
          b = true ∧ ticks v1 = S (ticks v)
          ∧ (reliable v →
             reliable v1
             ∧ held sid v1 = Some (refreshed sid t (clock v (ticks v)) d))
      | Rejected e =>
          b = false ∧ ticks v1 = ticks v
          ∧ (reliable v → reliable v1 ∧ neverAuthenticated sid v1)
      end.
Proof.
  unfold refreshAttempt, try_catch, refreshRequest.
  unfold bind at 1. unfold gets at 1. unfold bind at 1. unfold axios_post. simpl.
  destruct (authRemote v (sent v) _) as [d|e]; simpl.
  - unfold bind, Date_now. simpl.
    match goal with
    | |- context [storeTokens ?a ?u ?v'] =>
        destruct (storeTokens_frame a u v') as (v1 & Es & Henv & Hs & Ht);
        pose proof (storeTokens_reliable a u v') as Hrel'
    end.
    rewrite Es. simpl. exists true, v1. split_and!; try done.
    intros Hrel. destruct Hrel' as (v1' & Es' & Hrel' & Hheld & _); [done|].
    rewrite Es in Es'. by injection Es' as <-.
  - unfold bind, console_error. simpl.
    match goal with
    | |- context [revokeTokens ?a ?v'] =>
        destruct (total_revokeTokens a v') as ([] & v1 & Er);
        pose proof (revokeTokens_reliable a v') as Hrel'
    end.
    rewrite Er. simpl.
    exists false, v1.
    assert (Hfr : ∀ x x', revokeTokens sid x = (Returns tt, x') →
                    sent x' = sent x ∧ sameEnv x x' ∧ ticks x' = ticks x).
    { clear. intros x x'. unfold sameEnv. unfold_store.
      case_redis x; simpl; rewrite ?Er; simpl; by intros [= <-]. }
    destruct (Hfr _ _ Er) as (Hs & Henv & Ht). split_and!; try done.
    intros Hrel. destruct Hrel' as (v1' & Er' & Hrel' & Hnever & _); [done|].
    rewrite Er in Er'. by injection Er' as <-.
Qed.

(** ** The outbound client *)

(** With a Session that has an access token, [makeApiRequest] sends exactly
    one request, and that request carries the token as bearer credential. *)
Lemma makeApiRequest_attaches sid v v0 t tok method endpoint data :
  getTokens sid v = (Returns (Some t), v0) →
  accessToken t = Some tok → tok ≠ "" →
  ∃ out v2, makeApiRequest sid method endpoint data v = (out, v2)
    ∧ sent v2 = sent v ++ [bearerRequest v tok method endpoint data]
    ∧ sameEnv v v2 ∧ sameSessions v v2 ∧ ticks v2 = ticks v.
Proof.
  intros E Htok Hne.
  destruct (getTokens_reads sid v)
    as (found & v0' & E' & Hs & Hm & Hd & Ht & Hc & Hb & Ha & Hp & Hr & _).
  rewrite E in E'. injection E' as <- <-.
  unfold makeApiRequest. rewrite (bind_Returns _ _ _ _ _ E). simpl.
  rewrite Htok, (truthy_Some _ Hne). simpl.
  unfold try_catch, bind, gets, axios, bearerRequest, sameEnv, sameSessions, durable in *.
  simpl. rewrite Hb, Hs.
  destruct (apiRemote v0 _ _); simpl; eexists _, _; (split; [reflexivity|]);
    simpl; by rewrite ?Hs, ?Hm, ?Hd, ?Ht, ?Hc, ?Hb, ?Ha, ?Hp, ?Hr.
Qed.

(** ** Refreshing a stale Session *)

Lemma stale_reaches_refresh sid t w w0 :
  getTokens sid w = (Returns (Some t), w0) →
  truthy (accessToken t) = true → stale t w →
  ∃ v, sent v = sent w ∧ sameEnv w v ∧ sameSessions w v
    ∧ (reliable w → reliable v)
    ∧ checkAuthentication sid w
      = if truthy (refreshToken t) then refreshAttempt sid (Some t) v
        else (Returns false, v).
Proof.
  intros E Htok Hstale.
  destruct (getTokens_reads sid w)
    as (found & w0' & E' & Hs & Hm & Hd & Ht & Hc & Hb & Ha & Hp & Hr & _ & Hrel).
  rewrite E in E'. injection E' as <- <-.
  rewrite checkAuthentication_unfold. rewrite (bind_Returns _ _ _ _ _ E). simpl.
  rewrite Htok. simpl.
  destruct (expiresOn t) as [e|] eqn:Ee; [destruct (e =? 0)%Z eqn:Ez|]; simpl.
  - exists w0. unfold bind, ret. simpl. split_and!; try done.
    by destruct (truthy (refreshToken t)).
  - exists (set_ticks (S (ticks w0)) w0).
    unfold bind, Date_now, ret. simpl.
    assert ((clock w0 (ticks w0) <? e)%Z = false) as ->.
    { apply Z.ltb_ge. rewrite Hc, Ht. apply Hstale; [done|]. by apply Z.eqb_neq. }
    unfold sameEnv, sameSessions, durable, reliable in *. simpl.
    split_and!; try done. by destruct (truthy (refreshToken t)).
  - exists w0. unfold bind, ret. simpl. split_and!; try done.
    by destruct (truthy (refreshToken t)).
Qed.

Lemma sameEnv_trans w1 w2 w3 : sameEnv w1 w2 → sameEnv w2 w3 → sameEnv w1 w3.
Proof.
  unfold sameEnv. intros (?&?&?&?&?) (?&?&?&?&?). split_and!; congruence.
Qed.

(** C2, as the code has it. For a Session that is stale and has an access
    token, [checkAuthentication] answers false at once, sending nothing,
    when there is no refresh token; otherwise it sends exactly one request,
    to the refresh endpoint, and answers true or false as the remote
    resolves or rejects it.  When the token store does not fall back (no
    durable cache, or one that serves every command): after a resolved
    refresh the store holds, for the account, the new access token and the
    new refresh token or, if the reply has none, the old one; it holds the
    new expiry, the clock reading taken on the reply plus the lifetime in
    milliseconds, when that computation stays within the integers a double
    holds exactly; and a following outbound call attaches the new access
    token (when it is not empty).  After a rejected refresh the store holds
    no Session for the account and the next check answers false without
    sending anything. *)
Theorem stale_session_is_refreshed_or_revoked sid t w w0 :
  getTokens sid w = (Returns (Some t), w0) →
  truthy (accessToken t) = true → stale t w →
  ∃ b w1, checkAuthentication sid w = (Returns b, w1) ∧
    if truthy (refreshToken t) then
      sent w1 = sent w ++ [refreshRequest w (refreshToken t)]
      ∧ match authRemote w (sent w) (refreshRequest w (refreshToken t)) with
        | Resolved d =>
            b = true
            ∧ (reliable w →
               (∃ t', getTokens sid w1 = (Returns (Some t'), w1)
                  ∧ accessToken t' = access_token d
                  ∧ refreshToken t' = orElse (refresh_token d) (refreshToken t)
                  ∧ sellerId t' = sid
                  ∧ (exactExpiry (clock w (Nat.pred (ticks w1))) (expires_in d) →
                     expiresOn t'
                     = expiry (clock w (Nat.pred (ticks w1))) (expires_in d)))
               ∧ ∀ tok, access_token d = Some tok → tok ≠ "" →
                 ∀ method endpoint data, ∃ out w2,
                   makeApiRequest sid method endpoint data w1 = (out, w2)
                   ∧ sent w2 = sent w1 ++ [bearerRequest w tok method endpoint data])
        | Rejected e =>
            b = false
            ∧ (reliable w →
               neverAuthenticated sid w1
               ∧ ∃ w2, checkAuthentication sid w1 = (Returns false, w2)
                   ∧ sent w2 = sent w1)
        end
    else b = false ∧ sent w1 = sent w ∧ sameSessions w w1.
Proof.
  intros E Htok Hstale.
  destruct (stale_reaches_refresh _ _ _ _ E Htok Hstale)
    as (v & Hs & Henv & Hsess & Hrel & Ec).
  rewrite Ec. destruct (truthy (refreshToken t)); [|by exists false, v].
  destruct (refreshAttempt_run sid t v) as (b & v1 & Er & Hs1 & Henv1 & Hreply).
  exists b, v1. split; [done|].
  pose proof Henv as (Hb & Hc & Ha & Hp & Hr).
  assert (Hreq : refreshRequest v (refreshToken t) = refreshRequest w (refreshToken t))
    by (unfold refreshRequest; by rewrite Hb).
  rewrite Hreq, Ha, Hs in Hreply. rewrite Hs1, Hs, Hreq. split; [done|].
  pose proof (sameEnv_trans _ _ _ Henv Henv1) as (Hb1 & Hc1 & _).
  destruct (authRemote w (sent w) _) as [d|e].
  - destruct Hreply as (-> & Ht & Hheld). split; [done|]. intros Hw.
    destruct (Hheld (Hrel Hw)) as [Hrel1 Hh].
    rewrite Ht. simpl. rewrite <- Hc.
    pose proof (getTokens_reliable sid v1 Hrel1) as Eg. rewrite Hh in Eg.
    split; [by eexists|]. intros tok Hd Hne method endpoint data.
    destruct (makeApiRequest_attaches sid v1 v1 _ tok method endpoint data Eg Hd Hne)
      as (out & w2 & Em & Hs2 & _).
    exists out, w2. split; [done|]. rewrite Hs2, Hs1, Hs, Hreq.
    unfold bearerRequest. by rewrite Hb1.
  - destruct Hreply as (-> & _ & Hnever). split; [done|]. intros Hw.
    destruct (Hnever (Hrel Hw)) as [_ Hn]. split; [done|].
    destruct (getTokens_never _ _ Hn) as (w2 & Eg & Hs2 & _).
    exists w2. split; [|by rewrite Hs2, Hs1, Hs, Hreq].
    unfold checkAuthentication. by rewrite (bind_Returns _ _ _ _ _ Eg).
Qed.

Lemma stale_session_is_refreshed_or_revoked_witness :
  ∃ w1 t', checkAuthentication (Some "S1") (withSession (sessionS1 500) stubWorld)
           = (Returns true, w1)
    ∧ getTokens (Some "S1") w1 = (Returns (Some t'), w1)
    ∧ accessToken t' = Some "T1" ∧ refreshToken t' = Some "R1"
    ∧ expiresOn t' = Some 3601000%Z.
Proof.
  destruct (stale_session_is_refreshed_or_revoked (Some "S1") (sessionS1 500)
              (withSession (sessionS1 500) stubWorld)
              (withSession (sessionS1 500) stubWorld))
    as (b & w1 & Ec & _ & Hb & Hrel).
  - reflexivity.
  - reflexivity.
  - intros e [= <-] _. vm_compute. discriminate.
  - subst b. destruct Hrel as [(t' & Eg & Ha & Hr & _ & He) _]; [by left|].
    exists w1, t'. split_and!; [exact Ec | exact Eg | exact Ha | exact Hr |].
    rewrite He; [reflexivity|]. unfold exactExpiry, safeInteger. simpl. lia.
Defined.

(** C2 as stated fails when the durable cache is configured and one of its
    commands fails.  First: the refresh succeeds but the write of the new
    Session falls back to the in-process map, and the next read is served
    by the cache, which still holds the old Session; the outbound call
    carries the old token.  Second: the refresh is rejected but the delete
    fails; the cache keeps the Session, and the next check, the remote
    having recovered, answers true. *)
Lemma refresh_is_lost_when_the_cache_fails :
  ((checkAuthentication (Some "S1") staleCacheWorld).1 = Returns true
   ∧ (getTokens (Some "S1") (checkAuthentication (Some "S1") staleCacheWorld).2).1
     = Returns (Some (sessionS1 500))
   ∧ sent (makeApiRequest (Some "S1") "GET" "/account/info" JUndefined
             (checkAuthentication (Some "S1") staleCacheWorld).2).2
     = [refreshRequest staleCacheWorld (Some "R0");
        bearerRequest staleCacheWorld "T0" "GET" "/account/info" JUndefined])
  ∧ ((checkAuthentication (Some "S1") (recovering staleCacheWorld)).1 = Returns false
     ∧ (getTokens (Some "S1")
          (checkAuthentication (Some "S1") (recovering staleCacheWorld)).2).1
       = Returns (Some (sessionS1 500))
     ∧ (checkAuthentication (Some "S1")
          (checkAuthentication (Some "S1") (recovering staleCacheWorld)).2).1
       = Returns true).
Proof. split_and!; reflexivity. Qed.

(** ** Authenticate, then call a tool *)

Lemma reliable_frame w w' :
  (faults <$> redis w') = (faults <$> redis w) → reliable w → reliable w'.
Proof. unfold reliable. by intros ->. Qed.

Lemma reliable_command r s w :
  redis w = Some r → reliable w →
  reliable (set_redis (Some (mkRedis s (tail (faults r)))) w).
Proof.
  unfold reliable. intros ->. simpl. intros [?|[= ->]]; [done|]. by right.
Qed.

Lemma preserves_reliable_checkAuthentication k :
  preserves reliable (checkAuthentication k).
Proof.
  apply preserves_checkAuthentication;
    eauto using reliable_command; intros; by eapply reliable_frame.
Qed.

Lemma held_sameSessions sid w w' : sameSessions w w' → held sid w' = held sid w.
Proof.
  unfold sameSessions, held, durableTokens, durable. intros [-> Hd].
  rewrite Hd. destruct (redis w), (redis w'); simpl in *; done.
Qed.

(** Request shaping does not touch the world. *)
Lemma pure_ret {A} (a : A) : pure (ret a).
Proof. left. by exists a. Qed.

Lemma pure_throw {A} t : pure (@throw A t).
Proof. right. by exists t. Qed.

Lemma pure_bind {A B} (m : M A) (k : A → M B) :
  pure m → (∀ a, pure (k a)) → pure (bind m k).
Proof.
  intros [[a Ha] | [e He]] Hk.
  - destruct (Hk a) as [[b Hb] | [e He]]; [left; exists b | right; exists e];
      intros v; by rewrite (bind_Returns _ _ _ _ _ (Ha v)).
  - right. exists e. intros v. by rewrite (bind_Throws _ _ _ _ _ (He v)).
Qed.

Lemma pure_toStr x : pure (toStr x).
Proof. unfold toStr. destruct (ToString x); [apply pure_ret | apply pure_throw]. Qed.

Lemma pure_toString what x : pure (toString what x).
Proof.
  destruct x; simpl; try apply pure_toStr; try apply pure_throw.
  case_bool_decide; [apply pure_throw | apply pure_ret].
Qed.

Lemma pure_appendIf cond params name value : pure (appendIf cond params name value).
Proof.
  unfold appendIf. destruct cond; [|apply pure_ret].
  apply pure_bind; [apply pure_toStr | intros; apply pure_ret].
Qed.

Lemma sendsWithBearer_throw {A} tok t v : sendsWithBearer tok (@throw A t) v.
Proof. exists (Throws t), v. split; [done | by left]. Qed.

Lemma sendsWithBearer_pure {A B} tok (m : M A) (k : A → M B) v :
  pure m → (∀ a, sendsWithBearer tok (k a) v) →
  sendsWithBearer tok (bind m k) v.
Proof.
  intros [[a Ha] | [e He]] Hk.
  - destruct (Hk a) as (out & v' & E & H). exists out, v'.
    by rewrite (bind_Returns _ _ _ _ _ (Ha v)).
  - exists (Throws e), v. rewrite (bind_Throws _ _ _ _ _ (He v)).
    split; [done | by left].
Qed.

Lemma sendsWithBearer_request sid v v0 t tok method endpoint data tool args :
  getTokens sid v = (Returns (Some t), v0) →
  accessToken t = Some tok → tok ≠ "" →
  sendsWithBearer tok
    (bind (makeApiRequest sid method endpoint data) (fun d => rendered tool args d)) v.
Proof.
  intros E Htok Hne.
  destruct (makeApiRequest_attaches sid v v0 t tok method endpoint data E Htok Hne)
    as (out & v2 & Em & Hs & _).
  destruct out as [d|e].
  - unfold sendsWithBearer. rewrite (bind_Returns _ _ _ _ _ Em). unfold rendered.
    destruct (present v2 tool args d); eexists _, _; (split; [reflexivity|]);
      right; by eexists.
  - exists (Throws e), v2. rewrite (bind_Throws _ _ _ _ _ Em).
    split; [done|]. right. by eexists.
Qed.

(** Every tool handler sends at most one request, with the Session's token. *)
Lemma handleMyntraOperation_sends operation args v v0 t tok :
  getTokens (seller_id args) v = (Returns (Some t), v0) →
  accessToken t = Some tok → tok ≠ "" →
  sendsWithBearer tok (handleMyntraOperation operation args) v.
Proof.
  intros E Htok Hne. unfold handleMyntraOperation.
  repeat case_match; try apply sendsWithBearer_throw;
    unfold listProducts, getProduct, createProduct, updateProduct, updateInventory,
      listOrders, getOrder, updateOrderStatus, getReturns, processReturn, getAnalytics;
    cbv zeta;
    repeat (apply sendsWithBearer_pure;
            [by auto using pure_toStr, pure_toString, pure_appendIf | intros ?]);
    by eapply sendsWithBearer_request.
Qed.

Lemma listProducts_onlySeller :
  listProducts onlySellerS1
  = bind (makeApiRequest (Some "S1") "GET" "/products?limit=50&offset=0" JUndefined)
         (fun d => rendered "myntra_list_products" onlySellerS1 d).
Proof. reflexivity. Qed.

(** What the dispatcher sent is what the gate and the handler sent. *)
Lemma dispatch_after_gate name args v v' :
  name ≠ "myntra_authenticate" → name ≠ "myntra_status" →
  truthy (seller_id args) = true →
  checkAuthentication (seller_id args) v = (Returns true, v') →
  ∃ out w2, dispatch name (Some args) v = (out, w2)
    ∧ sent w2 = sent (handleMyntraOperation name args v').2.
Proof.
  intros Ha Hs Hid Ec. rewrite dispatch_operation by done. simpl.
  unfold try_catch. rewrite (bind_Returns _ _ _ _ _ Ec). simpl.
  destruct (handleMyntraOperation name args v') as [[r|e] v2]; by eexists _, _.
Qed.

(** C6, as the code has it. [S1] is not authenticated, the token store does
    not fall back, the clock is not before the epoch, and the remote answers
    the token-issuance call with
    [{access_token: "T1", refresh_token: "R1", expires_in: 3600}].  Then
    [myntra_authenticate] succeeds and the store holds, for [S1], the
    Session with access token [T1], refresh token [R1] and an expiry 3600
    seconds, in milliseconds, after the clock reading taken on the reply.
    A following call made before that expiry carries [T1]:
    [myntra_list_products] with only [seller_id] sends exactly one request,
    [GET /products?limit=50&offset=0], with bearer [T1], and any other tool
    called for [S1] sends nothing or one request with bearer [T1]. *)
Theorem authenticated_session_is_used args w w0 :
  seller_id args = Some "S1" →
  truthy (api_key args) = true → truthy (api_secret args) = true →
  reliable w →
  checkAuthentication (Some "S1") w = (Returns false, w0) →
  authRemote w (sent w0) (tokenRequest w args) = Resolved issued →
  (0 ≤ clock w (ticks w0))%Z →
  ∃ r1 w1,
    dispatch "myntra_authenticate" (Some args) w = (Returns r1, w1)
    ∧ isError r1 = None
    ∧ sent w1 = sent w0 ++ [tokenRequest w args]
    ∧ getTokens (Some "S1") w1
      = (Returns (Some (mkTokens (Some "T1") (Some "R1")
                          (Some (clock w (ticks w0) + 3600 * 1000)%Z) (Some "S1"))), w1)
    ∧ ((clock w (ticks w1) < clock w (ticks w0) + 3600 * 1000)%Z →
       (∃ out w2,
          dispatch "myntra_list_products" (Some onlySellerS1) w1 = (out, w2)
          ∧ sent w2 = sent w1 ++ [bearerRequest w "T1" "GET"
                                    "/products?limit=50&offset=0" JUndefined])
       ∧ ∀ name args',
           name ≠ "myntra_authenticate" → name ≠ "myntra_status" →
           seller_id args' = Some "S1" →
           ∃ out w2,
             dispatch name (Some args') w1 = (out, w2)
             ∧ (sent w2 = sent w1
                ∨ ∃ req, sent w2 = sent w1 ++ [req] ∧ carriesBearer "T1" req)).
Proof.
  intros Hid Hk Hsec Hrel Ec Hres Hpos.
  destruct (checkAuthentication_cases (Some "S1") w) as (b & w0' & Ec' & Henv & _).
  rewrite Ec in Ec'. injection Ec' as <- <-.
  destruct Henv as (Hb & Hc & Ha & Hp & Hr).
  pose proof (preserves_reliable_checkAuthentication (Some "S1") w Hrel) as Hrel0.
  rewrite Ec in Hrel0. simpl in Hrel0.
  set (session := mkTokens (Some "T1") (Some "R1")
                    (Some (clock w (ticks w0) + 3600 * 1000)%Z) (Some "S1")).
  set (v := set_ticks (S (ticks w0)) (set_sent (sent w0 ++ [tokenRequest w args]) w0)).
  destruct (storeTokens_reliable (Some "S1") session v)
    as (w1 & Es & Hrel1 & Hheld & Henv1 & Hs1 & Ht1); [done|].
  destruct Henv1 as (Hb1 & Hc1 & Ha1 & Hp1 & Hr1). simpl in *.
  assert (E1 : dispatch "myntra_authenticate" (Some args) w
               = (Returns (textResult
                    ("Successfully authenticated with Myntra!" +:+ nl +:+ nl
                     +:+ "Seller ID: " +:+ "S1" +:+ nl +:+ "Token expires in: "
                     +:+ "60" +:+ " minutes")), w1)).
  { rewrite dispatch_authenticate. simpl.
    unfold handleAuthenticate, try_catch. rewrite Hid, Hk, Hsec. simpl.
    rewrite (bind_Returns _ _ _ _ _ Ec). simpl.
    unfold bind at 1. unfold gets at 1. unfold bind at 1. unfold axios_post.
    rewrite Ha, Hb.
    change (mkRequest "post" (myntraApiBase w +:+ "/auth/token") [] (tokenBody args))
      with (tokenRequest w args).
    rewrite Hres. unfold bind, Date_now. simpl. rewrite Hc. fold v.
    change (mkTokens _ _ _ _) with session. by rewrite Es. }
  pose proof (getTokens_reliable (Some "S1") w1 Hrel1) as Eg. rewrite Hheld in Eg.
  eexists _, w1. split_and!; [exact E1 | done | done | exact Eg |].
  intros Hvalid.
  assert (Hcv : currentlyValid (Some "S1") w1 = true).
  { unfold currentlyValid. rewrite Eg. simpl. rewrite Hc1, Hc.
    apply andb_true_intro. split; [|by apply Z.ltb_lt].
    apply negb_true_iff, Z.eqb_neq. lia. }
  destruct (checkAuthentication_valid _ _ Hcv) as (v' & Ev & Henv' & Hs' & Hsess').
  pose proof (preserves_reliable_checkAuthentication (Some "S1") w1 Hrel1) as Hrel'.
  rewrite Ev in Hrel'. simpl in Hrel'.
  pose proof (getTokens_reliable (Some "S1") v' Hrel') as Eg'.
  rewrite (held_sameSessions _ _ _ Hsess'), Hheld in Eg'.
  destruct Henv' as (Hb' & _).
  split.
  - destruct (dispatch_after_gate "myntra_list_products" onlySellerS1 w1 v')
      as (out & w2 & E2 & Hs2); [done .. |].
    exists out, w2. split; [done|]. rewrite Hs2.
    change (handleMyntraOperation "myntra_list_products" onlySellerS1)
      with (listProducts onlySellerS1).
    rewrite listProducts_onlySeller.
    destruct (makeApiRequest_attaches (Some "S1") v' v' session "T1" "GET"
                "/products?limit=50&offset=0" JUndefined Eg' eq_refl)
      as (o & v2 & Em & Hs2' & _); [done|].
    unfold bind, rendered. rewrite Em.
    assert (sent v2 = sent w1 ++ [bearerRequest w "T1" "GET"
                                    "/products?limit=50&offset=0" JUndefined]) as <-.
    { rewrite Hs2', Hs'. unfold bearerRequest. by rewrite Hb', Hb1, Hb. }
    destruct o as [d|e]; [|done]. by destruct (present v2 _ _ d).
  - intros name args' Hna Hns Hid'.
    destruct (dispatch_after_gate name args' w1 v') as (out & w2 & E2 & Hs2);
      [done | done | by rewrite Hid' | by rewrite Hid' |].
    exists out, w2. split; [done|]. rewrite Hs2, <- Hs'.
    destruct (handleMyntraOperation_sends name args' v' v' session "T1")
      as (o & v2 & Eh & Hsent); [by rewrite Hid' | done | done |].
    by rewrite Eh.
Qed.

Lemma authenticated_session_is_used_witness :
  ∃ r1 w1 out w2,
    dispatch "myntra_authenticate" (Some credentialsS1) stubWorld = (Returns r1, w1)
    ∧ getTokens (Some "S1") w1
      = (Returns (Some (mkTokens (Some "T1") (Some "R1") (Some 3601000%Z) (Some "S1"))), w1)
    ∧ dispatch "myntra_list_products" (Some onlySellerS1) w1 = (out, w2)
    ∧ sent w2 = [tokenRequest stubWorld credentialsS1;
                 bearerRequest stubWorld "T1" "GET" "/products?limit=50&offset=0" JUndefined].
Proof.
  destruct (authenticated_session_is_used credentialsS1 stubWorld stubWorld)
    as (r1 & w1 & E1 & _ & Hs1 & Eg & Hnext).
  - reflexivity.
  - reflexivity.
  - reflexivity.
  - by left.
  - reflexivity.
  - reflexivity.
  - vm_compute. discriminate.
  - destruct Hnext as [(out & w2 & E2 & Hs2) _]; [vm_compute; reflexivity|].
    exists r1, w1, out, w2. split_and!; [exact E1 | exact Eg | exact E2 |].
    rewrite Hs2, Hs1. reflexivity.
Defined.

(** C6 as stated fails when the durable cache is configured and the write
    of the new Session fails: the Session goes to the in-process map, the
    next read is served by the cache, which has nothing for [S1], and
    [myntra_list_products] is turned away without any request being sent. *)
Lemma issued_token_is_lost_when_the_cache_fails :
  (dispatch "myntra_authenticate" (Some credentialsS1) emptyFlakyWorld).1
  = Returns (textResult ("Successfully authenticated with Myntra!" +:+ nl +:+ nl
                         +:+ "Seller ID: S1" +:+ nl
                         +:+ "Token expires in: 60 minutes"))
  ∧ sellerTokens (dispatch "myntra_authenticate" (Some credentialsS1) emptyFlakyWorld).2
      !! Some "S1"
    = Some (mkTokens (Some "T1") (Some "R1") (Some 3601000%Z) (Some "S1"))
  ∧ (dispatch "myntra_list_products" (Some onlySellerS1)
       (dispatch "myntra_authenticate" (Some credentialsS1) emptyFlakyWorld).2).1
    = Returns (errorResult notAuthenticatedMessage)
  ∧ sent (dispatch "myntra_list_products" (Some onlySellerS1)
            (dispatch "myntra_authenticate" (Some credentialsS1) emptyFlakyWorld).2).2
    = [tokenRequest emptyFlakyWorld credentialsS1].
Proof. split_and!; reflexivity. Qed.

(** ** The token store, read back *)

Lemma redisKey_inj k k' : strOf k ≠ strOf k' → redisKey k ≠ redisKey k'.
Proof. unfold redisKey. intros H E. by apply (inj (String.app _)) in E. Qed.

Lemma strOf_neq k k' : strOf k ≠ strOf k' → k ≠ k'.
Proof. by intros H ->. Qed.

Lemma storeTokens_other sid t w other :
  reliable w → strOf other ≠ strOf sid →
  held other (storeTokens sid t w).2 = held other w.
Proof.
  intros [Er | (st & Er)]%reliable_cases Hne;
    unfold held, durableTokens, durable; unfold_store;
    repeat (rewrite Er; simpl).
  - apply lookup_insert_ne. by apply not_eq_sym, strOf_neq.
  - rewrite lookup_insert_ne; [done|]. by apply not_eq_sym, redisKey_inj.
Qed.

Lemma revokeTokens_other sid w other :
  reliable w → strOf other ≠ strOf sid →
  held other (revokeTokens sid w).2 = held other w.
Proof.
  intros [Er | (st & Er)]%reliable_cases Hne;
    unfold held, durableTokens, durable; unfold_store;
    repeat (rewrite Er; simpl).
  - apply lookup_delete_ne. by apply not_eq_sym, strOf_neq.
  - rewrite lookup_delete_ne; [done|]. by apply not_eq_sym, redisKey_inj.
Qed.

(** X1. When the token store does not fall back (no durable cache, or one
    that serves every command), a record written with [storeTokens] is what
    the next [getTokens] for that account returns, and that read changes
    nothing; revoking the account afterwards makes [getTokens] return
    nothing.  Neither the write nor the revoke changes what [getTokens]
    returns for an account whose identifier reads differently (the
    identifier [undefined] and the identifier ["undefined"] share a cache
    key, so they are not told apart here). *)
Theorem stored_session_is_read_back sid t w :
  reliable w →
  ∃ w1, storeTokens sid t w = (Returns tt, w1)
    ∧ getTokens sid w1 = (Returns (Some t), w1)
    ∧ (∀ other, strOf other ≠ strOf sid →
         (getTokens other w1).1 = (getTokens other w).1)
    ∧ ∃ w2, revokeTokens sid w1 = (Returns tt, w2)
        ∧ getTokens sid w2 = (Returns None, w2)
        ∧ (∀ other, strOf other ≠ strOf sid →
             (getTokens other w2).1 = (getTokens other w).1).
Proof.
  intros Hrel.
  destruct (storeTokens_reliable sid t w Hrel) as (w1 & Es & Hrel1 & Hheld & _).
  exists w1. split; [done|]. rewrite (getTokens_reliable _ _ Hrel1), Hheld.
  split; [done|].
  assert (Hother1 : ∀ other, strOf other ≠ strOf sid → held other w1 = held other w).
  { intros other Hne. rewrite <- (storeTokens_other sid t w other Hrel Hne).
    by rewrite Es. }
  split.
  { intros other Hne.
    rewrite (getTokens_reliable _ _ Hrel1), (getTokens_reliable _ _ Hrel).
    simpl. by rewrite Hother1. }
  destruct (revokeTokens_reliable sid w1 Hrel1) as (w2 & Er2 & Hrel2 & Hnever & _).
  exists w2. split; [done|]. rewrite (getTokens_reliable _ _ Hrel2).
  assert (held sid w2 = None) as ->.
  { destruct Hnever as [Hm Hd]. unfold held. by destruct (redis w2). }
  split; [done|].
  intros other Hne.
  rewrite (getTokens_reliable _ _ Hrel2), (getTokens_reliable _ _ Hrel).
  simpl. rewrite <- (Hother1 other Hne).
  rewrite <- (revokeTokens_other sid w1 other Hrel1 Hne). by rewrite Er2.
Qed.

Lemma stored_session_is_read_back_witness :
  reliable (withRedis [] [] stubWorld)
  ∧ ∃ w1, storeTokens (Some "S1") (sessionS1 5000) (withRedis [] [] stubWorld)
          = (Returns tt, w1)
      ∧ getTokens (Some "S1") w1 = (Returns (Some (sessionS1 5000)), w1).
Proof.
  assert (H : reliable (withRedis [] [] stubWorld)) by (right; reflexivity).
  split; [exact H|].
  destruct (stored_session_is_read_back (Some "S1") (sessionS1 5000)
              (withRedis [] [] stubWorld) H) as (w1 & E & G & _).
  by exists w1.
Defined.

(** ** When the authentication check answers true *)

Lemma refresh_oracle_same w v rt :
  sent v = sent w → sameEnv w v →
  authRemote v (sent v) (refreshRequest v rt)
  = authRemote w (sent w) (refreshRequest w rt).
Proof.
  unfold sameEnv, refreshRequest. intros -> (-> & _ & -> & _). done.
Qed.

Lemma refreshRequest_same w v rt :
  sameEnv w v → refreshRequest v rt = refreshRequest w rt.
Proof. unfold sameEnv, refreshRequest. by intros (-> & _). Qed.

Lemma not_valid_stale sid t w w0 :
  getTokens sid w = (Returns (Some t), w0) →
  truthy (accessToken t) = true →
  currentlyValid sid w = false → stale t w.
Proof.
  unfold currentlyValid, stale. intros -> -> H e Ee Hz. simpl in H.
  rewrite Ee in H. apply Z.eqb_neq in Hz. rewrite Hz in H. simpl in H.
  by apply Z.ltb_ge.
Qed.

(** X2. [checkAuthentication] answers true in exactly two situations: the
    Session [getTokens] finds can be used as it is (it has an access token
    and the clock is before its expiry), or [getTokens] finds a Session with
    an access token and a refresh token and the remote resolves the refresh
    request.  In every other situation it answers false. *)
Theorem checkAuthentication_true_iff sid w :
  (checkAuthentication sid w).1 = Returns true
  ↔ currentlyValid sid w = true
    ∨ ∃ t w0 d, getTokens sid w = (Returns (Some t), w0)
        ∧ truthy (accessToken t) = true ∧ truthy (refreshToken t) = true
        ∧ authRemote w (sent w) (refreshRequest w (refreshToken t)) = Resolved d.
Proof.
  destruct (currentlyValid sid w) eqn:Hv.
  { destruct (checkAuthentication_valid sid w Hv) as (w' & -> & _). simpl.
    split; [by left | done]. }
  destruct (total_getTokens sid w) as ([t|] & w0 & E).
  2:{ rewrite checkAuthentication_unfold, (bind_Returns _ _ _ _ _ E). simpl.
      split; [done|]. intros [? | (t & w0' & d & E' & _)]; [done|].
      rewrite E in E'. simplify_eq. }
  destruct (truthy (accessToken t)) eqn:Htok.
  2:{ rewrite checkAuthentication_unfold, (bind_Returns _ _ _ _ _ E). simpl.
      rewrite Htok. simpl.
      split; [done|]. intros [? | (t' & w0' & d & E' & Htok' & _)]; [done|].
      rewrite E in E'. simplify_eq. congruence. }
  pose proof (not_valid_stale sid t w w0 E Htok Hv) as Hstale.
  destruct (stale_reaches_refresh sid t w w0 E Htok Hstale)
    as (v & Hs & Henv & _ & _ & ->).
  destruct (truthy (refreshToken t)) eqn:Href.
  2:{ simpl. split; [done|].
      intros [? | (t' & w0' & d & E' & _ & Href' & _)]; [done|].
      rewrite E in E'. simplify_eq. congruence. }
  destruct (refreshAttempt_run sid t v) as (b & v1 & -> & _ & _ & Hreply).
  rewrite (refresh_oracle_same w v _ Hs Henv) in Hreply. simpl.
  destruct (authRemote w (sent w) _) as [d|e] eqn:Ea.
  - destruct Hreply as (-> & _). split; [|done]. intros _. right.
    by exists t, w0, d.
  - destruct Hreply as (-> & _). split; [done|].
    intros [? | (t' & w0' & d & E' & _ & _ & Ea')]; [done|].
    rewrite E in E'. simplify_eq. congruence.
Qed.

Lemma checkAuthentication_true_iff_witness :
  (checkAuthentication (Some "S1") (withSession (sessionS1 500) stubWorld)).1
  = Returns true.
Proof.
  apply (checkAuthentication_true_iff (Some "S1") (withSession (sessionS1 500) stubWorld)).
  right. exists (sessionS1 500), (withSession (sessionS1 500) stubWorld), issued.
  split_and!; reflexivity.
Defined.

(** ** A stale Session behind a tool call *)

(** Past both gates, the dispatcher's outcome is its handler's. *)
Lemma dispatch_runs_handler name args v v' :
  name ≠ "myntra_authenticate" → name ≠ "myntra_status" →
  truthy (seller_id args) = true →
  checkAuthentication (seller_id args) v = (Returns true, v') →
  dispatch name (Some args) v = afterGates name (handleMyntraOperation name args v').
Proof.
  intros Ha Hs Hid Ec. rewrite dispatch_operation by done. simpl.
  unfold try_catch. rewrite (bind_Returns _ _ _ _ _ Ec). simpl.
  by destruct (handleMyntraOperation name args v') as [[r|e] v2].
Qed.

(** X3. A tool other than [myntra_authenticate] and [myntra_status] is
    called for an account whose Session has an access token and a refresh
    token but is stale, with a token store that does not fall back.  The
    authentication check of the dispatcher sends the refresh request.  If
    the remote resolves it with a non-empty access token, the check answers
    true, the store then holds a Session with the new token, and the tool
    handler runs in the same call, in the world the check left: the outcome
    of the call is the handler's (a result as it is, an exception logged
    and raised as [McpError]), and what the handler sends, if anything, is
    one request carrying the new token.  If the remote rejects it, the call
    ends with the error result that tells the caller to authenticate,
    nothing else is sent, and the account holds no Session afterwards. *)
Theorem stale_session_is_refreshed_before_the_tool name args t w w0 :
  name ≠ "myntra_authenticate" → name ≠ "myntra_status" →
  truthy (seller_id args) = true →
  reliable w →
  getTokens (seller_id args) w = (Returns (Some t), w0) →
  truthy (accessToken t) = true → stale t w →
  truthy (refreshToken t) = true →
  let refresh := refreshRequest w (refreshToken t) in
  match authRemote w (sent w) refresh with
  | Resolved d =>
      ∀ tok, access_token d = Some tok → tok ≠ "" →
      ∃ v1 t',
        checkAuthentication (seller_id args) w = (Returns true, v1)
        ∧ sent v1 = sent w ++ [refresh]
        ∧ getTokens (seller_id args) v1 = (Returns (Some t'), v1)
        ∧ accessToken t' = Some tok
        ∧ dispatch name (Some args) w
          = afterGates name (handleMyntraOperation name args v1)
        ∧ sendsWithBearer tok (handleMyntraOperation name args) v1
  | Rejected e =>
      ∃ w2, dispatch name (Some args) w
            = (Returns (errorResult notAuthenticatedMessage), w2)
        ∧ sent w2 = sent w ++ [refresh]
        ∧ neverAuthenticated (seller_id args) w2
  end.
Proof.
  intros Ha Hst Hid Hrel E Htok Hstale Href refresh. subst refresh.
  destruct (stale_reaches_refresh _ t w w0 E Htok Hstale)
    as (v & Hs & Henv & _ & Hrelv & Ec).
  rewrite Href in Ec.
  destruct (refreshAttempt_run (seller_id args) t v)
    as (b & v1 & Er & Hs1 & _ & Hreply).
  rewrite (refresh_oracle_same w v _ Hs Henv) in Hreply.
  rewrite (refreshRequest_same w v _ Henv), Hs in Hs1.
  rewrite Er in Ec.
  destruct (authRemote w (sent w) _) as [d|e].
  - intros tok Hd Hne. destruct Hreply as (-> & _ & Hafter).
    destruct (Hafter (Hrelv Hrel)) as (Hrel1 & Hheld).
    pose proof (getTokens_reliable (seller_id args) v1 Hrel1) as Eg.
    rewrite Hheld in Eg.
    exists v1, (refreshed (seller_id args) t (clock v (ticks v)) d).
    split_and!; [done | done | done | done | |].
    + by apply dispatch_runs_handler.
    + by apply (handleMyntraOperation_sends name args v1 v1
                  (refreshed (seller_id args) t (clock v (ticks v)) d) tok).
  - destruct Hreply as (-> & _ & Hafter).
    destruct (Hafter (Hrelv Hrel)) as (Hrel1 & Hnever).
    exists v1. rewrite dispatch_operation by done. simpl.
    unfold try_catch. rewrite (bind_Returns _ _ _ _ _ Ec). simpl. done.
Qed.

Lemma stale_session_is_refreshed_before_the_tool_witness :
  ∃ r w2, dispatch "myntra_get_order" (Some orderO1)
            (withSession (sessionS1 500) stubWorld) = (Returns r, w2)
    ∧ sent w2 = [refreshRequest stubWorld (Some "R0");
                 bearerRequest stubWorld "T1" "GET" "/orders/O1" JUndefined].
Proof.
  pose proof (stale_session_is_refreshed_before_the_tool "myntra_get_order" orderO1
                (sessionS1 500) (withSession (sessionS1 500) stubWorld)
                (withSession (sessionS1 500) stubWorld)) as H.
  simpl in H.
  destruct (H ltac:(done) ltac:(done) eq_refl ltac:(by left) eq_refl eq_refl
              ltac:(intros e [= <-] _; simpl; lia) eq_refl "T1" eq_refl ltac:(done))
    as (v1 & t' & Ec & _ & _ & _ & Ed & _).
  rewrite Ed. vm_compute in Ec. injection Ec as <-.
  by eexists _, _.
Defined.

(** ** What the outbound client returns *)

(** X4. [makeApiRequest] never changes the token store and never reads the
    clock.  Without a Session, or with one whose access token is missing or
    empty, it sends nothing and throws [Error("Not authenticated")].
    Otherwise it sends exactly one request, with the access token as bearer
    credential, and returns the reply's body; when the remote rejects the
    request it throws a plain [Error] whose message is the message of the
    remote's response body or, when that is missing or empty, the transport
    error's message. *)
Theorem outbound_call_outcome sid method endpoint data w :
  ∃ found w0 out w',
    getTokens sid w = (Returns found, w0)
    ∧ makeApiRequest sid method endpoint data w = (out, w')
    ∧ sameSessions w w' ∧ sameEnv w w' ∧ ticks w' = ticks w
    ∧ match found ≫= accessToken with
      | Some tok =>
          if negb (tok =? "") then
            let req := bearerRequest w tok method endpoint data in
            sent w' = sent w ++ [req]
            ∧ match apiRemote w (sent w) req with
              | Resolved d => out = Returns d
              | Rejected e =>
                  out = Throws (ErrorObj (Error
                          match response_data_message e with
                          | Some detail =>
                              if negb (detail =? "") then detail else message e
                          | None => message e
                          end))
              end
          else out = Throws (ErrorObj (Error "Not authenticated")) ∧ sent w' = sent w
      | None => out = Throws (ErrorObj (Error "Not authenticated")) ∧ sent w' = sent w
      end.
Proof.
  destruct (getTokens_reads sid w)
    as (found & w0 & E & Hs & Hm & Hd & Ht & Hc & Hb & Ha & Hp & Hr & _).
  exists found, w0. unfold makeApiRequest. rewrite (bind_Returns _ _ _ _ _ E).
  unfold sameSessions, sameEnv, bearerRequest.
  destruct (found ≫= accessToken) as [tok|] eqn:Etok; simpl;
    [destruct (tok =? "") eqn:Ee; simpl|].
  2:{ unfold try_catch, bind, gets, axios. simpl. rewrite Hb, Hs, Hp.
      destruct (apiRemote w (sent w) _) as [d|e]; simpl;
        eexists _, _; (split; [done|]); (split; [reflexivity|]); simpl;
        rewrite ?Hs, ?Hm, ?Hd, ?Ht, ?Hc, ?Hb, ?Ha, ?Hp, ?Hr; split_and!; try done.
      unfold detailOf, orElse, throw.
      destruct (response_data_message e) as [detail|]; simpl; [|done].
      by destruct (detail =? ""). }
  all: unfold throw; eexists _, _; (split; [done|]); (split; [reflexivity|]);
    by rewrite ?Hs, ?Hm, ?Hd, ?Ht, ?Hc, ?Hb, ?Ha, ?Hp, ?Hr.
Qed.

(** ** The status tool *)

Lemma makeApiRequest_rejected sid v v0 t tok method endpoint data e :
  getTokens sid v = (Returns (Some t), v0) →
  accessToken t = Some tok → tok ≠ "" →
  apiRemote v (sent v) (bearerRequest v tok method endpoint data) = Rejected e →
  ∃ v2, makeApiRequest sid method endpoint data v
        = (Throws (ErrorObj (Error (detailOf (ErrorObj e)))), v2).
Proof.
  intros E Htok Hne Hrej.
  destruct (getTokens_reads sid v)
    as (found & v0' & E' & Hs & Hm & Hd & Ht & Hc & Hb & Ha & Hp & Hr & _).
  rewrite E in E'. injection E' as <- <-.
  unfold makeApiRequest. rewrite (bind_Returns _ _ _ _ _ E). simpl.
  rewrite Htok, (truthy_Some _ Hne). simpl.
  unfold try_catch, bind, gets, axios, bearerRequest in *. simpl.
  rewrite Hb, Hs, Hp, Hrej. by eexists.
Qed.

(** With a usable Session, a token store that does not fall back and a
    remote that rejects the account request, the request of the status tool
    throws the remote's detail. *)
Lemma status_request_rejected sid w v t tok e :
  reliable w → currentlyValid sid w = true →
  checkAuthentication sid w = (Returns true, v) →
  held sid w = Some t → accessToken t = Some tok →
  apiRemote w (sent w) (bearerRequest w tok "GET" "/account/info" JUndefined)
  = Rejected e →
  ∃ v2, makeApiRequest sid "GET" "/account/info" JUndefined v
        = (Throws (ErrorObj (Error (detailOf (ErrorObj e)))), v2).
Proof.
  intros Hrel Hv Ec Hheld Htok Hrej.
  destruct (checkAuthentication_valid _ _ Hv) as (v' & Ec' & Henv & Hs & Hses).
  rewrite Ec in Ec'. injection Ec' as <-.
  assert (Hrelv : reliable v).
  { pose proof (preserves_reliable_checkAuthentication sid w Hrel) as H.
    by rewrite Ec in H. }
  assert (Hne : tok ≠ "").
  { unfold currentlyValid in Hv.
    rewrite (getTokens_reliable _ _ Hrel), Hheld in Hv.
    rewrite Htok in Hv. simpl in Hv. intros ->. done. }
  apply (makeApiRequest_rejected sid v v t tok); try done.
  - by rewrite (getTokens_reliable _ _ Hrelv), (held_sameSessions _ _ _ Hses), Hheld.
  - unfold bearerRequest. destruct Henv as (-> & _ & _ & -> & _). by rewrite Hs.
Qed.

(** X5. [myntra_status] called with a non-empty [seller_id] always returns
    a result that is not flagged as an error, whatever the token store and
    the remote do.  When the authentication check answers false the result
    is the "Not connected" text and nothing happens after the check.  When
    the Session is usable, the token store does not fall back and the
    remote rejects the account request, the result is the text
    [Connected but unable to fetch details: <detail>], where the detail is
    the remote's message or, failing that, the transport error's. *)
Theorem status_never_fails args w :
  truthy (seller_id args) = true →
  ∃ r w', dispatch "myntra_status" (Some args) w = (Returns r, w')
    ∧ isError r = None
    ∧ (∀ v, checkAuthentication (seller_id args) w = (Returns false, v) →
       w' = v
       ∧ r = textResult ("**Not connected to Myntra**" +:+ nl +:+ nl
                         +:+ "Run myntra_authenticate to get started."))
    ∧ (reliable w → currentlyValid (seller_id args) w = true →
       ∀ t tok e, held (seller_id args) w = Some t → accessToken t = Some tok →
       apiRemote w (sent w) (bearerRequest w tok "GET" "/account/info" JUndefined)
       = Rejected e →
       r = textResult ("Connected but unable to fetch details: "
                       +:+ detailOf (ErrorObj e))).
Proof.
  intros Hid. unfold dispatch. simpl.
  destruct (total_handleStatus (seller_id args) w) as (r & w' & E).
  rewrite (try_catch_Returns _ _ _ _ _ E). exists r, w'. split; [done|].
  revert E. unfold handleStatus. rewrite Hid. simpl.
  destruct (total_checkAuthentication (seller_id args) w) as (b & v & Ec).
  rewrite (bind_Returns _ _ _ _ _ Ec).
  destruct b.
  - unfold try_catch.
    destruct (bind (makeApiRequest _ _ _ _) _ v) as [[r0|e0] v2] eqn:Em.
    + intros [= <- <-]. split_and!.
      * revert Em. unfold bind.
        destruct (makeApiRequest _ _ _ _ v) as [[d|?] ?]; [|done].
        unfold rendered. destruct (present _ _ _ _); [|done]. by intros [= <- _].
      * intros v' Ec'. rewrite Ec in Ec'. done.
      * intros Hrel Hv t tok e Hheld Htok Hrej.
        destruct (status_request_rejected _ _ _ _ _ _ Hrel Hv Ec Hheld Htok Hrej)
          as (v3 & Er).
        rewrite (bind_Throws _ _ _ _ _ Er) in Em. done.
    + unfold ret. intros [= <- <-]. split_and!; [done| |].
      * intros v' Ec'. rewrite Ec in Ec'. done.
      * intros Hrel Hv t tok e Hheld Htok Hrej.
        destruct (status_request_rejected _ _ _ _ _ _ Hrel Hv Ec Hheld Htok Hrej)
          as (v3 & Er).
        rewrite (bind_Throws _ _ _ _ _ Er) in Em. by simplify_eq.
  - unfold ret. intros [= <- <-]. split_and!; [done| |].
    + intros v' Ec'. rewrite Ec in Ec'. by simplify_eq.
    + intros Hrel Hv. destruct (checkAuthentication_valid _ _ Hv) as (v' & Ec' & _).
      rewrite Ec in Ec'. done.
Qed.

Lemma status_never_fails_witness :
  ∃ r w', dispatch "myntra_status" (Some onlySellerS1) outageWorld = (Returns r, w')
    ∧ isError r = None
    ∧ r = textResult "Connected but unable to fetch details: Internal failure".
Proof.
  destruct (status_never_fails onlySellerS1 outageWorld eq_refl)
    as (r & w' & E & Herr & _ & Hrej).
  exists r, w'. split_and!; [done | done |].
  apply (Hrej ltac:(by left) eq_refl (sessionS1 5000) "T0" outage); reflexivity.
Defined.

(** ** The catalog and the operations behind it *)

Lemma operationTool_cases t :
  operationTool t → tool_name t ∈ operationNames.
Proof.
  intros (Hin & Ha & Hs). unfold listTools in Hin.
  repeat (apply elem_of_cons in Hin as [-> | Hin]); simpl in *; try done;
    try (by apply elem_of_nil in Hin); unfold operationNames; repeat constructor.
Qed.

Lemma operationNames_catalog name :
  name ∈ operationNames ↔ ∃ t, operationTool t ∧ tool_name t = name.
Proof.
  split.
  - intros Hin. unfold operationNames in Hin.
    assert (name ∈ tool_name <$> listTools
            ∧ name ≠ "myntra_authenticate" ∧ name ≠ "myntra_status")
      as ((t & -> & Ht)%list_elem_of_fmap & Ha & Hs).
    { repeat (apply elem_of_cons in Hin as [-> | Hin]);
        [..|by apply elem_of_nil in Hin];
        (split; [simpl; repeat constructor | done]). }
    by exists t.
  - intros (t & Ht & <-). by apply operationTool_cases.
Qed.

Lemma request_then_render sid v v0 t tok method endpoint data tool args :
  getTokens sid v = (Returns (Some t), v0) →
  accessToken t = Some tok → tok ≠ "" →
  ∃ out w', bind (makeApiRequest sid method endpoint data)
                 (fun d => rendered tool args d) v = (out, w')
    ∧ sent w' = sent v ++ [bearerRequest v tok method endpoint data].
Proof.
  intros E Htok Hne.
  destruct (makeApiRequest_attaches sid v v0 t tok method endpoint data E Htok Hne)
    as (out & v2 & Em & Hs & _).
  destruct out as [d|e].
  - rewrite (bind_Returns _ _ _ _ _ Em). unfold rendered.
    destruct (present v2 tool args d); by eexists _, _.
  - rewrite (bind_Throws _ _ _ _ _ Em). by eexists _, _.
Qed.

(** With [seller_id] alone, the request shaping of every operation comes
    out as one fixed request. *)
Lemma sellerOnly_shape name sid :
  name ∈ operationNames →
  handleMyntraOperation name (mkArgs sid None None ∅)
  = let '(method, endpoint, data) := sellerOnlyRequest name in
    bind (makeApiRequest sid method endpoint data)
         (fun d => rendered name (mkArgs sid None None ∅) d).
Proof.
  intros Hin. unfold operationNames in Hin.
  repeat (apply elem_of_cons in Hin as [-> | Hin]); [..|by apply elem_of_nil in Hin];
    reflexivity.
Qed.

Lemma unlisted_operation name args w :
  name ∉ operationNames →
  handleMyntraOperation name args w = (Throws (unknownOperation name), w).
Proof.
  intros Hin. unfold handleMyntraOperation.
  repeat match goal with
         | |- context [name =? ?s] =>
             rewrite (eqb_false name s)
               by (intros ->; apply Hin; unfold operationNames; repeat constructor)
         end.
  reflexivity.
Qed.

(** X6. The tools the catalog advertises, other than [myntra_authenticate]
    and [myntra_status], are exactly the operations [handleMyntraOperation]
    routes: a name can make it send a request if and only if the catalog
    lists it, and any other name ends in the [Unknown operation] exception
    with nothing sent and nothing changed. *)
Theorem catalog_is_what_is_routed name :
  ((∃ t, operationTool t ∧ tool_name t = name)
   ↔ ∃ args w, sent (handleMyntraOperation name args w).2 ≠ sent w)
  ∧ ((¬ ∃ t, operationTool t ∧ tool_name t = name) →
     ∀ args w, handleMyntraOperation name args w = (Throws (unknownOperation name), w)).
Proof.
  rewrite <- operationNames_catalog. split; [split|].
  - intros Hin. exists onlySellerS1, (withSession (sessionS1 5000) stubWorld).
    unfold onlySellerS1. rewrite (sellerOnly_shape _ _ Hin).
    destruct (sellerOnlyRequest name) as [[m e] d].
    destruct (request_then_render (Some "S1") (withSession (sessionS1 5000) stubWorld)
                (withSession (sessionS1 5000) stubWorld) (sessionS1 5000) "T0" m e d
                name (mkArgs (Some "S1") None None ∅)) as (out & w' & Er & Hs);
      [done..|].
    rewrite Er. simpl. rewrite Hs. done.
  - intros (args & w & Hsent). destruct (decide (name ∈ operationNames)) as [|Hn]; [done|].
    by rewrite (unlisted_operation _ _ _ Hn) in Hsent.
  - intros Hn args w. by apply unlisted_operation.
Qed.

Lemma catalog_is_what_is_routed_witness :
  handleMyntraOperation "myntra_delete_product" onlySellerS1 stubWorld
  = (Throws (ErrorObj (Error "Unknown operation: myntra_delete_product")), stubWorld).
Proof.
  apply (catalog_is_what_is_routed "myntra_delete_product").
  intros (t & (Hin & _) & Hn). unfold listTools in Hin.
  repeat (apply elem_of_cons in Hin as [-> | Hin]); try done.
  by apply elem_of_nil in Hin.
Defined.

(** X7. The [required] lists of the catalog are not enforced for anything
    but [seller_id]: every advertised operation, called for an account with
    a usable access token and with no other argument, sends exactly one
    request with the bearer token, in which each missing argument appears
    as [undefined] (for instance [GET /orders/undefined] for
    [myntra_get_order], [metric=undefined] for [myntra_get_analytics]). *)
Theorem required_properties_are_not_checked tool sid v v0 t tok :
  operationTool tool →
  getTokens sid v = (Returns (Some t), v0) →
  accessToken t = Some tok → tok ≠ "" →
  ∃ out w',
    handleMyntraOperation (tool_name tool) (mkArgs sid None None ∅) v = (out, w')
    ∧ let '(method, endpoint, data) := sellerOnlyRequest (tool_name tool) in
      sent w' = sent v ++ [bearerRequest v tok method endpoint data].
Proof.
  intros Hin%operationTool_cases E Htok Hne.
  rewrite (sellerOnly_shape _ _ Hin).
  destruct (sellerOnlyRequest (tool_name tool)) as [[m e] d].
  by apply (request_then_render sid v v0 t tok).
Qed.

Lemma required_properties_are_not_checked_witness :
  ∃ out w',
    handleMyntraOperation "myntra_get_order" onlySellerS1
      (withSession (sessionS1 5000) stubWorld) = (out, w')
    ∧ sent w' = [bearerRequest stubWorld "T0" "GET" "/orders/undefined" JUndefined].
Proof.
  apply (required_properties_are_not_checked
           (mkTool "myntra_get_order"
              [("seller_id", ofType "string"); ("order_id", ofType "string")]
              ["seller_id"; "order_id"])
           (Some "S1") (withSession (sessionS1 5000) stubWorld)
           (withSession (sessionS1 5000) stubWorld) (sessionS1 5000) "T0");
    [|reflexivity|reflexivity|done].
  split; [|done]. unfold listTools. repeat constructor.
Defined.

(** X8. A tool name that the catalog does not list is looked at only after
    both gates.  Called with a non-empty [seller_id], it gets the error
    result that tells the caller to authenticate when the authentication
    check answers false; when the check answers true the call raises the
    [McpError] with message
    [Error executing <name>: Unknown operation: <name>], after logging the
    exception, and nothing else happens after the check. *)
Theorem uncatalogued_tool_is_an_internal_error name args w :
  name ∉ tool_name <$> listTools →
  truthy (seller_id args) = true →
  ∃ b v, checkAuthentication (seller_id args) w = (Returns b, v)
    ∧ dispatch name (Some args) w
      = if b then (Throws (raised name (unknownOperation name)),
                   logged name (unknownOperation name) v)
        else (Returns (errorResult notAuthenticatedMessage), v).
Proof.
  intros Hin Hid.
  destruct (total_checkAuthentication (seller_id args) w) as (b & v & Ec).
  exists b, v. split; [done|].
  assert (name ≠ "myntra_authenticate" ∧ name ≠ "myntra_status") as [Ha Hs].
  { split; intros ->; apply Hin; unfold listTools; simpl; repeat constructor. }
  assert (Hn : name ∉ operationNames).
  { intros (t & (Ht & _) & <-)%operationNames_catalog. apply Hin.
    by apply list_elem_of_fmap_2. }
  rewrite dispatch_operation by done. simpl. unfold try_catch.
  rewrite (bind_Returns _ _ _ _ _ Ec). destruct b; simpl; [|done].
  by rewrite (unlisted_operation _ _ _ Hn).
Qed.

Lemma uncatalogued_tool_is_an_internal_error_witness :
  ∃ v, dispatch "myntra_delete_product" (Some onlySellerS1)
         (withSession (sessionS1 5000) stubWorld)
       = (Throws (McpError InternalError
            "Error executing myntra_delete_product: Unknown operation: myntra_delete_product"),
          v).
Proof.
  destruct (uncatalogued_tool_is_an_internal_error "myntra_delete_product" onlySellerS1
              (withSession (sessionS1 5000) stubWorld)) as (b & v & Ec & Ed).
  - unfold listTools. simpl. intros H.
    repeat (apply elem_of_cons in H as [H|H]; [done|]). by apply elem_of_nil in H.
  - reflexivity.
  - vm_compute in Ec. injection Ec as <- _. by eexists.
Defined.

(** ** Defaults and optional arguments *)

Lemma world_bind_ext {A B} (m : M A) (k1 k2 : A → M B) w :
  (∀ a w', (k1 a w').2 = (k2 a w').2) → (bind m k1 w).2 = (bind m k2 w).2.
Proof. intros H. unfold bind. destruct (m w) as [[a|e] w']; [apply H | done]. Qed.

Lemma rendered_world tool args d w : (rendered tool args d w).2 = w.
Proof. unfold rendered. by destruct (present w tool args d). Qed.

Lemma arg_withField_eq name v args : arg (withField name v args) name = v.
Proof. unfold arg, withField. simpl. by rewrite lookup_insert_eq. Qed.

Lemma arg_withField_ne name other v args :
  other ≠ name → arg (withField name v args) other = arg args other.
Proof. intros H. unfold arg, withField. simpl. by rewrite lookup_insert_ne. Qed.

Lemma arg_absent name args : fields args !! name = None → arg args name = JUndefined.
Proof. unfold arg. by intros ->. Qed.

Ltac unfold_handlers :=
  unfold handleMyntraOperation; simpl;
  unfold listProducts, getProduct, createProduct, updateProduct, updateInventory,
    listOrders, getOrder, updateOrderStatus, getReturns, processReturn, getAnalytics;
  cbv zeta.

(** Two runs that differ only in the argument object given to the final
    rendering end in the same world. *)
Ltac same_world :=
  repeat (apply world_bind_ext; intros ? ?); by rewrite !rendered_world.

(** X9. The defaults the catalog advertises for [myntra_list_products]
    ([status] all, [limit] 50, [offset] 0), [myntra_list_orders] ([status]
    all, [limit] 50) and [myntra_get_returns] ([status] pending, [limit] 25)
    are the ones the handlers apply: leaving such a property out and giving
    it its advertised default lead to the same world, so to the same
    request sent.  The one advertised default this does not cover is that
    of [metric] in [myntra_get_analytics]. *)
Theorem advertised_defaults_are_applied tool field schema d args w :
  operationTool tool → (field, schema) ∈ properties tool →
  property_default schema = Some d →
  tool_name tool ≠ "myntra_get_analytics" →
  fields args !! field = None →
  (handleMyntraOperation (tool_name tool) (withField field d args) w).2
  = (handleMyntraOperation (tool_name tool) args w).2.
Proof.
  intros (Hin & _ & _) Hp Hd Hn Ha. unfold listTools in Hin.
  repeat (apply elem_of_cons in Hin as [-> | Hin]);
    [..|by apply elem_of_nil in Hin]; simpl in Hp, Hn; try done.
  all: repeat (apply elem_of_cons in Hp as [[= -> ->] | Hp]);
    try (by apply elem_of_nil in Hp); try done; simpl in Hd; injection Hd as <-.
  all: unfold_handlers.
  all: rewrite ?arg_withField_eq, ?arg_withField_ne by done.
  all: rewrite ?(arg_absent _ _ Ha); simpl orDefault.
  all: change (seller_id (withField _ _ args)) with (seller_id args).
  all: same_world.
Qed.

Lemma advertised_defaults_are_applied_witness :
  (handleMyntraOperation "myntra_get_returns"
     (withField "status" (JStr "pending") onlySellerS1)
     (withSession (sessionS1 5000) stubWorld)).2
  = (handleMyntraOperation "myntra_get_returns" onlySellerS1
       (withSession (sessionS1 5000) stubWorld)).2.
Proof.
  apply (advertised_defaults_are_applied
           (mkTool "myntra_get_returns"
              [("seller_id", ofType "string");
               ("status", mkProperty "string"
                            ["pending"; "approved"; "rejected"; "completed"; "all"]
                            (Some (JStr "pending")));
               ("limit", mkProperty "number" [] (Some (JNum 25)))]
              ["seller_id"])
           "status"
           (mkProperty "string" ["pending"; "approved"; "rejected"; "completed"; "all"]
              (Some (JStr "pending")))).
  - split; [|done]. unfold listTools. repeat constructor.
  - simpl. repeat constructor.
  - reflexivity.
  - done.
  - reflexivity.
Defined.

(** X10. The catalog advertises [sales] as the default of [metric] in
    [myntra_get_analytics], but the handler applies no default: for an
    account with a usable access token, the call without [metric] requests
    [/analytics?metric=undefined], while the call with [metric] set to
    [sales] requests [/analytics?metric=sales]. *)
Theorem analytics_default_is_not_applied sid v v0 t tok :
  getTokens sid v = (Returns (Some t), v0) →
  accessToken t = Some tok → tok ≠ "" →
  (∃ tool schema, operationTool tool ∧ tool_name tool = "myntra_get_analytics"
     ∧ ("metric", schema) ∈ properties tool
     ∧ property_default schema = Some (JStr "sales"))
  ∧ sent (handleMyntraOperation "myntra_get_analytics" (mkArgs sid None None ∅) v).2
    = sent v ++ [bearerRequest v tok "GET" "/analytics?metric=undefined" JUndefined]
  ∧ sent (handleMyntraOperation "myntra_get_analytics"
            (withField "metric" (JStr "sales") (mkArgs sid None None ∅)) v).2
    = sent v ++ [bearerRequest v tok "GET" "/analytics?metric=sales" JUndefined].
Proof.
  intros E Htok Hne. split_and!.
  - eexists (mkTool "myntra_get_analytics" _ _), _. split_and!; [|reflexivity| |].
    + split; [|done]. unfold listTools. do 12 apply list_elem_of_further.
      apply list_elem_of_here.
    + simpl. apply list_elem_of_further, list_elem_of_here.
    + reflexivity.
  - destruct (request_then_render sid v v0 t tok "GET" "/analytics?metric=undefined"
                JUndefined "myntra_get_analytics" (mkArgs sid None None ∅) E Htok Hne)
      as (out & w' & Er & Hs).
    change (handleMyntraOperation "myntra_get_analytics" (mkArgs sid None None ∅) v)
      with (bind (makeApiRequest sid "GET" "/analytics?metric=undefined" JUndefined)
              (fun d => rendered "myntra_get_analytics" (mkArgs sid None None ∅) d) v).
    by rewrite Er.
  - destruct (request_then_render sid v v0 t tok "GET" "/analytics?metric=sales"
                JUndefined "myntra_get_analytics"
                (withField "metric" (JStr "sales") (mkArgs sid None None ∅)) E Htok Hne)
      as (out & w' & Er & Hs).
    change (handleMyntraOperation "myntra_get_analytics"
              (withField "metric" (JStr "sales") (mkArgs sid None None ∅)) v)
      with (bind (makeApiRequest sid "GET" "/analytics?metric=sales" JUndefined)
              (fun d => rendered "myntra_get_analytics"
                          (withField "metric" (JStr "sales") (mkArgs sid None None ∅)) d) v).
    by rewrite Er.
Qed.

Lemma analytics_default_is_not_applied_witness :
  sent (handleMyntraOperation "myntra_get_analytics" onlySellerS1
          (withSession (sessionS1 5000) stubWorld)).2
  = [bearerRequest stubWorld "T0" "GET" "/analytics?metric=undefined" JUndefined].
Proof.
  apply (analytics_default_is_not_applied (Some "S1")
           (withSession (sessionS1 5000) stubWorld)
           (withSession (sessionS1 5000) stubWorld) (sessionS1 5000) "T0");
    [reflexivity | reflexivity | done].
Defined.

(** X11. An optional argument that a handler uses only behind a truth test
    ([category], [images], [from_date], [to_date], [tracking_id],
    [courier_partner], [reason]) counts as absent whenever its value is
    falsy: the empty string, [null], [false] or [0] given for it lead to the
    same world, so to the same request, as leaving it out. *)
Theorem falsy_optional_argument_is_absent name field v args w :
  (name, field) ∈ guarded →
  truthyV v = false →
  fields args !! field = None →
  (handleMyntraOperation name (withField field v args) w).2
  = (handleMyntraOperation name args w).2.
Proof.
  intros Hin Hv Ha. unfold guarded in Hin.
  repeat (apply elem_of_cons in Hin as [[= -> ->] | Hin]);
    [..|by apply elem_of_nil in Hin].
  all: unfold_handlers.
  all: rewrite ?arg_withField_eq, ?arg_withField_ne by done.
  all: rewrite ?(arg_absent _ _ Ha), ?Hv; simpl truthyV; cbv iota.
  all: change (seller_id (withField _ _ args)) with (seller_id args).
  all: unfold appendIf.
  all: same_world.
Qed.

Lemma falsy_optional_argument_is_absent_witness :
  (handleMyntraOperation "myntra_list_orders"
     (withField "from_date" (JStr "") onlySellerS1)
     (withSession (sessionS1 5000) stubWorld)).2
  = (handleMyntraOperation "myntra_list_orders" onlySellerS1
       (withSession (sessionS1 5000) stubWorld)).2.
Proof.
  apply falsy_optional_argument_is_absent; [|reflexivity|reflexivity].
  unfold guarded. repeat constructor.
Defined.

(** ** What the tool handlers leave alone *)

(** X12. No tool handler changes the token store: whatever the operation,
    the arguments and the remote's answer, both backends of the store hold
    after the call the records they held before it. *)
Theorem tool_handlers_leave_the_token_store operation args w :
  sameSessions w (handleMyntraOperation operation args w).2.
Proof.
  apply (preserves_handleMyntraOperation (fun w' => sameSessions w w'));
    [done | done | | done].
  intros r v Er [Hm Hd]. split; [done|]. rewrite <- Hd. unfold durable. by rewrite Er.
Qed.

(** ** The expiry of cached records *)

Lemma sevenDays_redis s fl w :
  map_Forall (fun _ v => v.1 = 604800%Z) s →
  sevenDays (set_redis (Some (mkRedis s fl)) w).
Proof. done. Qed.

Lemma sevenDays_store r w :
  redis w = Some r → sevenDays w →
  map_Forall (fun (_ : string) (v : Z * JsonText) => v.1 = 604800%Z) (store r).
Proof. unfold sevenDays, durable. by intros ->. Qed.

(** X13. Every record in the durable cache was written with an expiry of
    seven days (604800 seconds): if that holds before a call of the
    dispatcher or of the login, status and logout routes, it holds after
    it, whatever the call does. *)
Theorem cached_sessions_expire_after_seven_days w :
  sevenDays w →
  (∀ name args, sevenDays (dispatch name args w).2)
  ∧ (∀ body, sevenDays (auth_login body w).2)
  ∧ (∀ s, sevenDays (auth_status s w).2)
  ∧ (∀ s, sevenDays (auth_logout s w).2).
Proof.
  assert (H4 : ∀ r w, redis w = Some r → sevenDays w →
                sevenDays (set_redis (Some (mkRedis (store r) (tail (faults r)))) w)).
  { intros r v Er Hv. apply sevenDays_redis. by apply (sevenDays_store r v). }
  assert (H5 : ∀ r t w, redis w = Some r → sevenDays w →
                sevenDays (set_redis (Some (mkRedis
                  (<[redisKey (sellerId t) := ((3600 * 24 * 7)%Z, JSON_stringify t)]>
                     (store r))
                  (tail (faults r)))) w)).
  { intros r t v Er Hv. apply sevenDays_redis.
    apply map_Forall_insert_2; [done | by apply (sevenDays_store r v)]. }
  assert (H6 : ∀ r key w, redis w = Some r → sevenDays w →
                sevenDays (set_redis
                  (Some (mkRedis (delete key (store r)) (tail (faults r)))) w)).
  { intros r key v Er Hv. apply sevenDays_redis.
    apply map_Forall_delete. by apply (sevenDays_store r v). }
  intros Hw. split_and!; intros.
  - by apply preserves_dispatch.
  - by apply preserves_auth_login.
  - by apply preserves_auth_status.
  - by apply preserves_auth_logout.
Qed.

Lemma cached_sessions_expire_after_seven_days_witness :
  sevenDays (withRedis [sessionS1 500] [] stubWorld)
  ∧ sevenDays (dispatch "myntra_authenticate" (Some credentialsS1)
                 (withRedis [sessionS1 500] [] stubWorld)).2.
Proof.
  assert (H : sevenDays (withRedis [sessionS1 500] [] stubWorld)).
  { unfold sevenDays. simpl. apply map_Forall_insert_2; [done | apply map_Forall_empty]. }
  split; [exact H|].
  destruct (cached_sessions_expire_after_seven_days _ H) as (Hd & _). apply Hd.
Defined.

(** ** The in-process map behind a cache that serves *)

(** The entry points keep a property that [storeTokens] keeps for a reason
    of its own, and that survives the other elementary updates. *)
Section PreservationThroughStore.
Variable I : World → Prop.
Hypothesis I_ticks : ∀ n w, I w → I (set_ticks n w).
Hypothesis I_console : ∀ l w, I w → I (set_console l w).
Hypothesis I_sent : ∀ l w, I w → I (set_sent l w).
Hypothesis I_faults : ∀ r w,
  redis w = Some r → I w →
  I (set_redis (Some (mkRedis (store r) (tail (faults r)))) w).
Hypothesis I_del : ∀ r key w,
  redis w = Some r → I w →
  I (set_redis (Some (mkRedis (delete key (store r)) (tail (faults r)))) w).
Hypothesis I_Map_delete : ∀ k w,
  I w → I (set_sellerTokens (delete k (sellerTokens w)) w).
Hypothesis I_storeTokens : ∀ k t, preserves I (storeTokens k t).

Lemma through_checkAuthentication k : preserves I (checkAuthentication k).
Proof.
  unfold checkAuthentication. repeat preserve_step;
    auto using preserves_getTokens, preserves_Date_now, preserves_axios_post,
      preserves_console_error, preserves_revokeTokens.
Qed.

Lemma through_handleAuthenticate args : preserves I (handleAuthenticate args).
Proof.
  unfold handleAuthenticate. repeat preserve_step;
    auto using through_checkAuthentication, preserves_Date_now, preserves_axios_post.
Qed.

Lemma through_handleStatus k : preserves I (handleStatus k).
Proof.
  unfold handleStatus. repeat preserve_step;
    auto using through_checkAuthentication, preserves_makeApiRequest.
Qed.

Lemma through_dispatch name args : preserves I (dispatch name args).
Proof.
  unfold dispatch. repeat preserve_step;
    auto using through_handleAuthenticate, through_handleStatus,
      through_checkAuthentication, preserves_handleMyntraOperation,
      preserves_console_error.
Qed.

Lemma through_auth_login body : preserves I (auth_login body).
Proof.
  unfold auth_login. repeat preserve_step;
    auto using preserves_Date_now, preserves_axios_post, preserves_console_error.
Qed.

Lemma through_auth_status s : preserves I (auth_status s).
Proof.
  unfold auth_status. repeat preserve_step;
    auto using through_checkAuthentication, preserves_getTokens, preserves_Date_now.
Qed.

Lemma through_auth_logout s : preserves I (auth_logout s).
Proof.
  unfold auth_logout. repeat preserve_step; auto using preserves_revokeTokens.
Qed.
End PreservationThroughStore.

Lemma servedBy_frame m w w' :
  redis w' = redis w → sellerTokens w' = sellerTokens w →
  servedByCache m w → servedByCache m w'.
Proof. unfold servedByCache, reliable. by intros -> ->. Qed.

Lemma servedBy_command m r s w :
  redis w = Some r → servedByCache m w →
  servedByCache m (set_redis (Some (mkRedis s (tail (faults r)))) w).
Proof.
  unfold servedByCache. intros Er (Hc & Hrel & Hm). split_and!; [done| |done].
  by apply (reliable_command r).
Qed.

(** Served by the cache, a write does not reach the in-process map. *)
Lemma servedBy_storeTokens m k t : preserves (servedByCache m) (storeTokens k t).
Proof.
  intros w (Hc & Hrel & Hm).
  destruct (reliable_cases w Hrel) as [Er | (st & Er)].
  { rewrite Er in Hc. by destruct Hc. }
  unfold servedByCache, reliable. unfold_store. rewrite Er. simpl. rewrite Er. simpl.
  split_and!; [done | by right | done].
Qed.

Lemma servedBy_size m w :
  servedByCache m w → servedByCache m w ∧ (active_connections w ≤ size m)%nat.
Proof.
  intros H. split; [done|]. destruct H as (_ & _ & H).
  by apply map_subseteq_size.
Qed.

(** X14. While a durable cache is configured and serves every command, no
    entry point adds a record to the in-process map: after a call of the
    dispatcher or of the login, status and logout routes the map holds no
    record it did not hold before, the cache still serves, and the
    [active_connections] figure of [GET /metrics], which is the size of
    that map, has not gone up.  On a server started with an empty map it
    therefore stays 0 however many accounts authenticate. *)
Theorem served_cache_keeps_the_map_from_growing m w :
  servedByCache m w →
  (∀ name args,
     servedByCache m (dispatch name args w).2
     ∧ (active_connections (dispatch name args w).2 ≤ size m)%nat)
  ∧ (∀ body,
       servedByCache m (auth_login body w).2
       ∧ (active_connections (auth_login body w).2 ≤ size m)%nat)
  ∧ (∀ s,
       servedByCache m (auth_status s w).2
       ∧ (active_connections (auth_status s w).2 ≤ size m)%nat)
  ∧ (∀ s,
       servedByCache m (auth_logout s w).2
       ∧ (active_connections (auth_logout s w).2 ≤ size m)%nat).
Proof.
  assert (H1 : ∀ n w, servedByCache m w → servedByCache m (set_ticks n w))
    by (intros; by eapply servedBy_frame).
  assert (H2 : ∀ l w, servedByCache m w → servedByCache m (set_console l w))
    by (intros; by eapply servedBy_frame).
  assert (H3 : ∀ l w, servedByCache m w → servedByCache m (set_sent l w))
    by (intros; by eapply servedBy_frame).
  assert (H4 : ∀ r w, redis w = Some r → servedByCache m w →
                servedByCache m
                  (set_redis (Some (mkRedis (store r) (tail (faults r)))) w))
    by (intros; by eapply servedBy_command).
  assert (H5 : ∀ r key w, redis w = Some r → servedByCache m w →
                servedByCache m
                  (set_redis (Some (mkRedis (delete key (store r)) (tail (faults r)))) w))
    by (intros; by eapply servedBy_command).
  assert (H6 : ∀ k w, servedByCache m w →
                servedByCache m (set_sellerTokens (delete k (sellerTokens w)) w)).
  { intros k v (Hc & Hrel & Hm). split_and!; [done | done |]. simpl.
    etrans; [apply delete_subseteq | done]. }
  pose proof (servedBy_storeTokens m) as H7.
  intros Hw. split_and!; intros; apply servedBy_size.
  - by apply through_dispatch.
  - by apply through_auth_login.
  - by apply through_auth_status.
  - by apply through_auth_logout.
Qed.

Lemma served_cache_keeps_the_map_from_growing_witness :
  servedByCache ∅ (withRedis [] [] stubWorld)
  ∧ (auth_login (mkLogin (Some "S1") (Some "k") (Some "s"))
       (withRedis [] [] stubWorld)).1
    = Returns (mkResponse 200
                 [("success", JBool true);
                  ("message", JStr "Authentication successful");
                  ("sellerId", JStr "S1"); ("expiresIn", JNum 3600)])
  ∧ (active_connections
       (auth_login (mkLogin (Some "S1") (Some "k") (Some "s"))
          (withRedis [] [] stubWorld)).2 ≤ 0)%nat.
Proof.
  assert (H : servedByCache ∅ (withRedis [] [] stubWorld)).
  { split_and!; [by eexists | by right | done]. }
  split; [exact H|]. split; [reflexivity|].
  destruct (served_cache_keeps_the_map_from_growing ∅ _ H) as (_ & Hl & _).
  apply Hl.
Defined.

(** ** The HTTP routes *)

(** X15. [POST /auth/login], given a body object, always answers.  With a
    missing or empty field it answers 400 and does nothing.  Otherwise it
    sends the token request, whether or not the account already holds a
    Session.  If the remote resolves it, the route answers 200 with the
    account and the lifetime, and, when the token store does not fall back,
    the store then holds for the account the issued access and refresh
    tokens, with the expiry computed from the clock when that computation
    stays within the integers a double holds exactly.  If the remote
    rejects it, the route answers 401 with the remote's detail and both
    backends of the token store hold what they held before. *)
Theorem login_route_answers body w :
  ∃ r w', auth_login body w = (Returns r, w')
    ∧ if incomplete body then
        w' = w
        ∧ r = mkResponse 400
                [("error", JStr "Missing required fields");
                 ("required", JArr [JStr "sellerId"; JStr "apiKey"; JStr "apiSecret"])]
      else
        sent w' = sent w ++ [loginRequest w body]
        ∧ match authRemote w (sent w) (loginRequest w body) with
          | Resolved d =>
              r = mkResponse 200
                    [("success", JBool true);
                     ("message", JStr "Authentication successful");
                     ("sellerId", optStr (login_sellerId body));
                     ("expiresIn", optNum (expires_in d))]
              ∧ (reliable w →
                 reliable w'
                 ∧ ∃ t', held (login_sellerId body) w' = Some t'
                     ∧ accessToken t' = access_token d
                     ∧ refreshToken t' = refresh_token d
                     ∧ sellerId t' = login_sellerId body
                     ∧ (exactExpiry (clock w (ticks w)) (expires_in d) →
                        expiresOn t' = expiry (clock w (ticks w)) (expires_in d)))
          | Rejected e =>
              r = mkResponse 401
                    [("error", JStr "Authentication failed");
                     ("details", JStr (detailOf (ErrorObj e)))]
              ∧ sameSessions w w'
          end.
Proof.
  unfold auth_login, incomplete.
  destruct (negb (truthy (login_sellerId body)) || _ || _); [by eexists _, _|].
  unfold try_catch, loginRequest.
  unfold bind at 1. unfold gets at 1. unfold bind at 1. unfold axios_post. simpl.
  destruct (authRemote w (sent w) _) as [d|e]; simpl.
  - unfold bind, Date_now. simpl.
    match goal with
    | |- context [storeTokens ?a ?u ?v'] =>
        destruct (storeTokens_frame a u v') as (v1 & Es & Henv & Hs & Ht);
        pose proof (storeTokens_reliable a u v') as Hrel'
    end.
    rewrite Es. simpl. eexists _, _. split; [reflexivity|]. split_and!; try done.
    intros Hrel. destruct Hrel' as (v1' & Es' & Hrel' & Hheld & _); [done|].
    rewrite Es in Es'. injection Es' as <-. split; [done|]. by eexists.
  - unfold bind, console_error, ret. simpl. eexists _, _. split; [reflexivity|]. done.
Qed.

Lemma login_route_answers_witness :
  ∃ w' t', auth_login (mkLogin (Some "S1") (Some "k") (Some "s"))
             (withSession (sessionS1 5000) stubWorld)
           = (Returns (mkResponse 200
                         [("success", JBool true);
                          ("message", JStr "Authentication successful");
                          ("sellerId", JStr "S1"); ("expiresIn", JNum 3600)]), w')
    ∧ held (Some "S1") w' = Some t'
    ∧ accessToken t' = Some "T1" ∧ expiresOn t' = Some 3601000%Z.
Proof.
  destruct (login_route_answers (mkLogin (Some "S1") (Some "k") (Some "s"))
              (withSession (sessionS1 5000) stubWorld))
    as (r & w' & E & _ & -> & Hheld).
  destruct Hheld as (_ & t' & Hh & Ha & _ & _ & He); [by left|].
  exists w', t'. split_and!; [exact E | exact Hh | exact Ha |].
  apply He. unfold exactExpiry, safeInteger. simpl. lia.
Defined.

(** X16. The status and logout routes never answer 500.
    [GET /auth/status/:sellerId] answers 200 with the [authenticated] flag
    equal to what [checkAuthentication] answered, and sends nothing and
    changes no Session beyond what that check did.
    [POST /auth/logout/:sellerId] answers 200 whatever the durable cache
    does, sends nothing, and leaves no record for the account in the
    in-process map. *)
Theorem status_and_logout_routes_answer_200 s w :
  (∃ b v r w', checkAuthentication (Some s) w = (Returns b, v)
     ∧ auth_status s w = (Returns r, w')
     ∧ status r = 200%Z
     ∧ head (json r) = Some ("authenticated", JBool b)
     ∧ sent w' = sent v ∧ sameSessions v w')
  ∧ (∃ w', auth_logout s w
           = (Returns (mkResponse 200
                         [("success", JBool true);
                          ("message", JStr "Logged out successfully")]), w')
       ∧ sellerTokens w' = delete (Some s) (sellerTokens w)
       ∧ sent w' = sent w).
Proof.
  split.
  - destruct (total_checkAuthentication (Some s) w) as (b & v & Ec).
    exists b, v. unfold auth_status, try_catch. rewrite (bind_Returns _ _ _ _ _ Ec).
    destruct b; [|by eexists _, _].
    destruct (getTokens_reads (Some s) v)
      as (found & v0 & E & Hs & Hm & Hd & _).
    rewrite (bind_Returns _ _ _ _ _ E).
    destruct (found ≫= expiresOn) as [e|]; [destruct (negb (e =? 0)%Z)|];
      unfold bind, Date_now, ret; simpl; eexists _, _; split_and!; try done.
  - unfold auth_logout, try_catch.
    destruct (total_revokeTokens (Some s) w) as ([] & w' & Er).
    rewrite (bind_Returns _ _ _ _ _ Er). exists w'. split; [done|].
    revert Er. unfold_store.
    case_redis w; simpl; rewrite ?Er; simpl; by intros [= <-].
Qed.

(** X17. [GET /ready] always answers, sends nothing and changes no Session.
    It answers 200 when no durable cache is configured or the cache serves
    the ping, and 503 with the error's message when the ping fails. *)
Theorem readiness_reflects_the_cache w :
  ∃ r w', ready w = (Returns r, w')
    ∧ sameSessions w w' ∧ sent w' = sent w
    ∧ (nextCommandServed w → r = mkResponse 200 [("status", JStr "ready")])
    ∧ (∀ c e rest, redis w = Some c → faults c = Some e :: rest →
         r = mkResponse 503 [("status", JStr "not ready"); ("error", JStr (message e))]).
Proof.
  unfold ready, redis_ping, redis_command, try_catch, bind, gets, ret, sameSessions,
    durable, nextCommandServed.
  case_redis w; simpl; rewrite ?Er; simpl; eexists _, _; (split; [reflexivity|]);
    simpl; rewrite ?Er; simpl; split_and!; try done.
  - intros c e rest [= <-]. done.
  - intros H. by destruct (H _ _ _ eq_refl eq_refl).
  - intros c e' rest [= <-]. simpl. by intros [= <-].
  - intros c e' rest [= <-]. done.
Qed.

Lemma readiness_reflects_the_cache_witness :
  (ready flakyWorld).1
  = Returns (mkResponse 503 [("status", JStr "not ready");
                             ("error", JStr "Socket closed unexpectedly")]).
Proof.
  destruct (readiness_reflects_the_cache flakyWorld) as (r & w' & E & _ & _ & _ & H).
  rewrite E. simpl. f_equal.
  exact (H _ _ _ eq_refl eq_refl).
Defined.

(** ** Allowed origins *)

Lemma app_String c (s t : string) : String c s +:+ t = String c (s +:+ t).
Proof. reflexivity. Qed.

Lemma split_commaFree x : commaFree x = true → split x = [x].
Proof.
  induction x as [|c x IH]; [done|]. simpl.
  intros [Hc Hx]%andb_prop. apply negb_true_iff in Hc. rewrite Hc, (IH Hx). done.
Qed.

Lemma split_piece x s :
  commaFree x = true → split (x +:+ "," +:+ s) = x :: split s.
Proof.
  induction x as [|c x IH]; [done|]. simpl commaFree.
  intros [Hc Hx]%andb_prop. apply negb_true_iff in Hc.
  rewrite app_String. simpl split. by rewrite Hc, (IH Hx).
Qed.

(** Splitting at the commas undoes joining with commas. *)
Lemma split_join l :
  l ≠ [] → (∀ x, x ∈ l → commaFree x = true) → split (join l) = l.
Proof.
  induction l as [|x [|y rest] IH]; [done| |]; intros _ Hl.
  - simpl. apply split_commaFree, Hl. constructor.
  - change (join (x :: y :: rest)) with (x +:+ "," +:+ join (y :: rest)).
    rewrite split_piece by (apply Hl; constructor).
    rewrite IH; [done | done |]. intros z Hz. apply Hl. by constructor.
Qed.

(** X18. A request without an [Origin] (or with an empty one) always passes
    the CORS check.  When [ALLOWED_ORIGINS] is set to a list of origins
    joined by commas, a non-empty origin passes if and only if it is,
    character for character, one of the listed origins, and is refused with
    [Not allowed by CORS] otherwise: the three built-in origins are allowed
    only when the variable is unset. *)
Theorem configured_origins_replace_the_defaults l origin :
  l ≠ [] → (∀ x, x ∈ l → commaFree x = true) →
  (∀ env, corsOrigin env None = Returns true ∧ corsOrigin env (Some "") = Returns true)
  ∧ (origin ≠ "" →
     (corsOrigin (Some (join l)) (Some origin) = Returns true ↔ origin ∈ l)
     ∧ (corsOrigin (Some (join l)) (Some origin)
        = Throws (ErrorObj (Error "Not allowed by CORS")) ↔ origin ∉ l)).
Proof.
  intros Hne Hl. split; [done|]. intros Ho.
  unfold corsOrigin, allowedOrigins. rewrite (split_join l Hne Hl), (truthy_Some _ Ho).
  simpl. case_bool_decide; split; split; done.
Qed.

Lemma configured_origins_replace_the_defaults_witness :
  corsOrigin (Some "https://shop.example,https://admin.example") (Some "https://claude.ai")
  = Throws (ErrorObj (Error "Not allowed by CORS")).
Proof.
  apply (configured_origins_replace_the_defaults
           ["https://shop.example"; "https://admin.example"] "https://claude.ai").
  - done.
  - intros x Hx. repeat (apply elem_of_cons in Hx as [-> | Hx]); [done..|].
    by apply elem_of_nil in Hx.
  - done.
  - intros Hx. repeat (apply elem_of_cons in Hx as [Hx | Hx]); [done..|].
    by apply elem_of_nil in Hx.
Defined.

(** ** A cache that fails a command *)

(** X19. A failure of the durable cache never reaches the caller of the
    token store.  When the command fails, [storeTokens] logs the error and
    writes the record to the in-process map, leaving the cache as it was;
    [getTokens] logs the error and answers with what the in-process map
    holds, changing no record. *)
Theorem cache_failure_falls_back sid t w c e rest :
  redis w = Some c → faults c = Some e :: rest →
  (∃ w', storeTokens sid t w = (Returns tt, w')
     ∧ sellerTokens w' = <[sid := t]> (sellerTokens w)
     ∧ durable w' = durable w
     ∧ console w' = console w ++ [("Failed to store tokens in Redis:", ErrorObj e)]
     ∧ sent w' = sent w)
  ∧ (∃ w', getTokens sid w = (Returns (sellerTokens w !! sid), w')
       ∧ sameSessions w w'
       ∧ console w' = console w ++ [("Failed to get tokens from Redis:", ErrorObj e)]
       ∧ sent w' = sent w).
Proof.
  intros Er Hf. destruct c as [st fl]. simpl in Hf. subst fl.
  unfold sameSessions, durable. unfold_store.
  rewrite Er. simpl. rewrite Er. simpl.
  split; eexists; split_and!; reflexivity.
Qed.

Lemma cache_failure_falls_back_witness :
  ∃ w', getTokens (Some "S1") flakyWorld = (Returns None, w')
    ∧ console w'
      = [("Failed to get tokens from Redis:",
          ErrorObj (Error "Socket closed unexpectedly"))].
Proof.
  destruct (cache_failure_falls_back (Some "S1") (sessionS1 5000) flakyWorld
              _ _ _ eq_refl eq_refl) as (_ & w' & E & _ & Hc & _).
  by exists w'.
Defined.

(** ** Logging in over HTTP, then calling a tool *)



